(** * Quiz slide generator: a shallow embedding of [quiz_generator.py]

    The script reads a text file of question/answer pairs, parses it with
    [parse_questions], builds a slide deck with [generate_presentation]
    (question slides first, then answer slides) and saves it next to the
    input file.  Python strings are modelled as lists of Unicode code
    points, the presentation library as a record of the calls made on it,
    and the script's effects (printing, opening the input, saving the
    deck, exceptions and [sys.exit]) by a small trace-and-exception monad.
    What the outside decides (the content of a file, whether a save
    succeeds, whether the library accepts a text) is a parameter, the
    [world]. *)

From Stdlib Require Import Ascii String List NArith ZArith Bool Lia.
From Stdlib Require Decimal DecimalNat.
Import ListNotations.

Local Open Scope N_scope.

(** ** Python [str] and the built-in methods the script uses *)

Module PyStr.

(** A [str] is a sequence of code points. *)
Definition char := N.
Definition str := list char.

(** An ASCII literal of the source, as a [str]. *)
Definition lit (s : string) : str := map N_of_ascii (list_ascii_of_string s).

(** The line break ['\n']. *)
Definition NL : char := 10.

(** [str.isspace] on one code point: the characters that [str.strip()]
    removes (CPython's [Py_UNICODE_ISSPACE]). *)
Definition isspace (c : char) : bool :=
  ((9 <=? c) && (c <=? 13))
  || ((28 <=? c) && (c <=? 32))
  || (c =? 133) || (c =? 160) || (c =? 5760)
  || ((8192 <=? c) && (c <=? 8202))
  || (c =? 8232) || (c =? 8233) || (c =? 8239) || (c =? 8287)
  || (c =? 12288).

(** [s.lstrip()] *)
Fixpoint lstrip (s : str) : str :=
  match s with
  | [] => []
  | c :: r => if isspace c then lstrip r else s
  end.

(** [s.rstrip()]: a character stays when it is not a space or when
    something that stays follows it. *)
Fixpoint rstrip (s : str) : str :=
  match s with
  | [] => []
  | c :: r =>
      match rstrip r with
      | [] => if isspace c then [] else [c]
      | r' => c :: r'
      end
  end.

(** [s.strip()] *)
Definition strip (s : str) : str := rstrip (lstrip s).

(** [s.startswith(p)] *)
Fixpoint starts_with (p s : str) : bool :=
  match p, s with
  | [], _ => true
  | _ :: _, [] => false
  | a :: p', b :: s' => (a =? b) && starts_with p' s'
  end.

(** Puts a character in front of the first piece of a split. *)
Definition push (c : char) (pieces : list str) : list str :=
  match pieces with
  | [] => [[c]]
  | p :: ps => (c :: p) :: ps
  end.

(** [s.split(sep)] for a non-empty [sep], scanning from the left; [k] counts
    the characters of a separator found that are still to be skipped. *)
Fixpoint split_from (sep : str) (k : nat) (s : str) : list str :=
  match s with
  | [] => [[]]
  | c :: r =>
      match k with
      | S k' => split_from sep k' r
      | O =>
          if starts_with sep s
          then [] :: split_from sep (length sep - 1) r
          else push c (split_from sep 0 r)
      end
  end.

Definition split (sep s : str) : list str := split_from sep 0 s.

(** [s.replace(old, new)] for a non-empty [old]: every occurrence, found
    from the left and not overlapping, is replaced. *)
Fixpoint replace_from (old new : str) (k : nat) (s : str) : str :=
  match s with
  | [] => []
  | c :: r =>
      match k with
      | S k' => replace_from old new k' r
      | O =>
          if starts_with old s
          then (new ++ replace_from old new (length old - 1) r)%list
          else c :: replace_from old new 0 r
      end
  end.

Definition replace (old new s : str) : str := replace_from old new 0 s.

(** [a == b] on strings. *)
Fixpoint str_eqb (a b : str) : bool :=
  match a, b with
  | [], [] => true
  | x :: a', y :: b' => (x =? y) && str_eqb a' b'
  | _, _ => false
  end.

(** [sep.join(pieces)] *)
Fixpoint join (sep : str) (pieces : list str) : str :=
  match pieces with
  | [] => []
  | [p] => p
  | p :: ps => (p ++ sep ++ join sep ps)%list
  end.

(** [str(n)] for a natural number: its decimal digits. *)
Fixpoint digits (u : Decimal.uint) : str :=
  match u with
  | Decimal.Nil => []
  | Decimal.D0 u' => 48 :: digits u'
  | Decimal.D1 u' => 49 :: digits u'
  | Decimal.D2 u' => 50 :: digits u'
  | Decimal.D3 u' => 51 :: digits u'
  | Decimal.D4 u' => 52 :: digits u'
  | Decimal.D5 u' => 53 :: digits u'
  | Decimal.D6 u' => 54 :: digits u'
  | Decimal.D7 u' => 55 :: digits u'
  | Decimal.D8 u' => 56 :: digits u'
  | Decimal.D9 u' => 57 :: digits u'
  end.

Definition str_of_nat (n : nat) : str := digits (Nat.to_uint n).

End PyStr.

Import PyStr.

(** ** The parser *)

(** The body of the loop of [parse_questions]: one block is stripped and
    split into [lines]; [lines[0]] and [lines[1]] are in range where they
    are read. *)
Definition parse_block (qa_pairs : list (str * str)) (block : str)
  : list (str * str) :=
  let lines := split [NL] (strip block) in
  if (2 <=? length lines)%nat then
    let question := strip (nth 0 lines []) in
    let answer := strip (nth 1 lines []) in
    (qa_pairs ++ [(question, answer)])%list
  else if (length lines =? 1)%nat then
    (qa_pairs ++ [(strip (nth 0 lines []), [])])%list
  else qa_pairs.

(** The blocks of a file's content: [content.strip().split('\n\n')]. *)
Definition blocks_of (content : str) : list str :=
  split [NL; NL] (strip content).

(** The lines of a block: [block.strip().split('\n')]. *)
Definition lines_of (block : str) : list str :=
  split [NL] (strip block).

(** [parse_questions] after the file is read: from the content to the
    list of (question, answer) pairs. *)
Definition parse_content (content : str) : list (str * str) :=
  fold_left parse_block (blocks_of content) [].

(** ** The slide deck

    The presentation library is an external collaborator: a deck is the
    record of the slides added to it, a slide the record of its background
    and of the text boxes added to it, a text box the record of its place
    and of the paragraphs of its text frame.  Lengths are in tenths of an
    inch ([Inches(0.5)] is [5]), font sizes in points. *)

Record RGBColor := RGB { red : Z; green : Z; blue : Z }.

Inductive PP_ALIGN := JUSTIFY.

(** A paragraph of a text frame: the text handed to the library for it
    and the properties the script sets on it, [None] where it sets
    nothing.  What the library stores for the text (runs, breaks, escapes
    for control characters) is its own business and is not modelled. *)
Record Paragraph := mkParagraph {
  p_text : str;
  p_alignment : option PP_ALIGN;
  p_font_size : option Z;
  p_font_bold : option bool;
  p_font_color : option RGBColor
}.

Record TextBox := mkTextBox {
  tb_left : Z;
  tb_top : Z;
  tb_width : Z;
  tb_height : Z;
  tb_word_wrap : option bool;   (* [None]: left as the library sets it *)
  tb_paragraphs : list Paragraph
}.

(** The text the script assigned to the frame: the texts handed over for
    its paragraphs, one per line. *)
Definition tb_text (tb : TextBox) : str :=
  join [NL] (map p_text (tb_paragraphs tb)).

Record Slide := mkSlide {
  background : RGBColor;
  shapes : list TextBox
}.

Record Presentation := mkPresentation {
  slide_width : Z;
  slide_height : Z;
  slides : list Slide
}.

(** [Presentation()] with the slide dimensions the script sets. *)
Definition new_presentation : Presentation :=
  mkPresentation 100 75 [].

(** [prs.slides.add_slide(...)], with the slide as the script fills it. *)
Definition add_slide (prs : Presentation) (s : Slide) : Presentation :=
  mkPresentation (slide_width prs) (slide_height prs) (slides prs ++ [s]).

Definition dark_gray : RGBColor := RGB 32 32 32.
Definition white : RGBColor := RGB 255 255 255.

(** What [text_frame.text = text] leaves in the frame when the library
    accepts the text: one paragraph for each line of [text], with nothing
    set on it. *)
Definition paragraphs_of (text : str) : list Paragraph :=
  map (fun line => mkParagraph line None None None None) (split [NL] text).

(** The assignments the script makes on [frame.paragraphs[0]], and on no
    other paragraph: justified, the font size, bold or not, white.  After
    an assignment of the text the frame always has a first paragraph. *)
Definition format_first (size : Z) (bold : bool) (ps : list Paragraph)
  : list Paragraph :=
  match ps with
  | [] => []
  | p :: rest =>
      mkParagraph (p_text p) (Some JUSTIFY) (Some size) (Some bold)
        (Some white) :: rest
  end.

(** The title [f"{i}."]. *)
Definition slide_title (i : nat) : str := (str_of_nat i ++ lit ".")%list.

(** [enumerate(qa_pairs, start=i)] *)
Definition enumerate (i : nat) (qa_pairs : list (str * str))
  : list (nat * (str * str)) :=
  combine (seq i (length qa_pairs)) qa_pairs.

(** ** Effects: output, files, the library, exceptions *)

(** What the script does to the outside, in order.  The progress bars of
    [tqdm] go to the error stream and are left out. *)
Inductive event :=
| Stdout (line : str)                         (* [print(line)] *)
| OpenRead (path : str)                      (* [open(path, 'r')] *)
| Save (path : str) (prs : Presentation).    (* [prs.save(path)] *)

(** The exceptions the script distinguishes; [SystemExit] is what
    [sys.exit] raises, and [except Exception] does not catch it. *)
Inductive exn :=
| FileNotFoundError
| Exception (msg : str)
| SystemExit (code : Z).

(** How the outside answers: reading a file gives its decoded text or
    fails, saving a deck succeeds or fails, and the library accepts a
    text for a text frame or refuses it with an exception ([ValueError]
    for a string that XML forbids), whose message [text_refused] gives. *)
Inductive io_error := NotFound | Failure (msg : str).

Record world := mkWorld {
  read_text : str -> io_error + str;
  save_deck : str -> Presentation -> option io_error;
  text_refused : str -> option str
}.

Definition exn_of_io (e : io_error) : exn :=
  match e with
  | NotFound => FileNotFoundError
  | Failure msg => Exception msg
  end.

(** A computation extends the trace and returns a value or raises. *)
Definition M (A : Type) : Type := list event -> list event * (exn + A).

Definition ret {A} (a : A) : M A := fun t => (t, inr a).

Definition bind {A B} (m : M A) (k : A -> M B) : M B :=
  fun t =>
    match m t with
    | (t', inr a) => k a t'
    | (t', inl e) => (t', inl e)
    end.

Definition raise {A} (e : exn) : M A := fun t => (t, inl e).

Definition emit (e : event) : M unit := fun t => ((t ++ [e])%list, inr tt).

Definition print (line : str) : M unit := emit (Stdout line).

Definition sys_exit {A} (code : Z) : M A := raise (SystemExit code).

(** [try: body  except FileNotFoundError: h1  except Exception as e: h2 e] *)
Definition try_except {A} (body : M A) (h1 : M A) (h2 : str -> M A) : M A :=
  fun t =>
    match body t with
    | (t', inl FileNotFoundError) => h1 t'
    | (t', inl (Exception msg)) => h2 msg t'
    | r => r
    end.

Declare Scope py_scope.
Delimit Scope py_scope with py.
Notation "x <- m ;; k" := (bind m (fun x => k))
  (at level 61, m at next level, right associativity) : py_scope.
Notation "m ;; k" := (bind m (fun _ => k))
  (at level 61, right associativity) : py_scope.

(** [for item in items: state = body(state, item)]; an exception raised
    by the body ends the loop. *)
Fixpoint for_each {A S : Type} (items : list A) (body : S -> A -> M S)
    (state : S) : M S :=
  match items with
  | [] => ret state
  | item :: rest =>
      bind (body state item) (fun state' => for_each rest body state')
  end.

(** ** The script *)

Section Script.

Variable w : world.

Local Open Scope py_scope.
Local Open Scope list_scope.

(** [parse_questions(filename)] *)
Definition parse_questions (filename : str) : M (list (str * str)) :=
  emit (OpenRead filename) ;;
  match read_text w filename with
  | inl e => raise (exn_of_io e)
  | inr content => ret (parse_content content)
  end.

(** [frame.text = text]: the library raises when it refuses the text. *)
Definition set_text (text : str) : M (list Paragraph) :=
  match text_refused w text with
  | Some msg => raise (Exception msg)
  | None => ret (paragraphs_of text)
  end.

(** The steps the script repeats for each text box: [add_textbox] at a
    place, [word_wrap] where it sets it, [frame.text = text], then the
    formatting of [frame.paragraphs[0]]. *)
Definition add_textbox (left top width height : Z) (wrap : option bool)
    (text : str) (size : Z) (bold : bool) : M TextBox :=
  ps <- set_text text ;;
  ret (mkTextBox left top width height wrap (format_first size bold ps)).

(** [create_slide]: the slide is added to [prs] and returned.  The deck
    is given the slide once it is filled: a deck left with a slide half
    filled by an exception is never looked at. *)
Definition create_slide (prs : Presentation) (title_text body_text : str)
    (make_bold : bool) : M (Presentation * Slide) :=
  title_box <- add_textbox 5 5 90 8 None title_text 32 true ;;
  body_box <- add_textbox 10 20 80 40 (Some true) body_text 28 make_bold ;;
  let slide := mkSlide dark_gray [title_box; body_box] in
  ret (add_slide prs slide, slide).

(** First pass: [for i, (question, answer) in enumerate(qa_pairs, start=1)]
    creating the question slides. *)
Definition question_pass (prs : Presentation) (qa_pairs : list (str * str))
  : M Presentation :=
  for_each (enumerate 1 qa_pairs)
    (fun prs '(i, (question, answer)) =>
       let title := slide_title i in
       r <- create_slide prs title question false ;;
       ret (fst r))
    prs.

(** Second pass: the answer slides, built in the body of the loop: title,
    question (not bold), answer (bold). *)
Definition answer_pass (prs : Presentation) (qa_pairs : list (str * str))
  : M Presentation :=
  for_each (enumerate 1 qa_pairs)
    (fun prs '(i, (question, answer)) =>
       let title := slide_title i in
       title_box <- add_textbox 5 5 90 8 None title 32 true ;;
       q_box <- add_textbox 10 20 80 20 (Some true) question 28 false ;;
       a_box <- add_textbox 10 45 80 20 (Some true) answer 28 true ;;
       ret (add_slide prs (mkSlide dark_gray [title_box; q_box; a_box])))
    prs.

(** The check mark of the final messages. *)
Definition check_mark : char := 10003%N.

(** [generate_presentation(qa_pairs, output_filename)] *)
Definition generate_presentation (qa_pairs : list (str * str))
    (output_filename : str) : M unit :=
  let prs := new_presentation in
  let num_questions := length qa_pairs in
  print (lit "Generating " ++ str_of_nat num_questions
         ++ lit " question slides...") ;;
  prs <- question_pass prs qa_pairs ;;
  print (lit "Generating " ++ str_of_nat num_questions
         ++ lit " answer slides...") ;;
  prs <- answer_pass prs qa_pairs ;;
  emit (Save output_filename prs) ;;
  match save_deck w output_filename prs with
  | Some e => raise (exn_of_io e)
  | None => ret tt
  end ;;
  print ([NL; check_mark] ++ lit " Presentation saved as: "
         ++ output_filename) ;;
  print ([check_mark] ++ lit " Total slides: "
         ++ str_of_nat (length (slides prs))) ;;
  print (lit "  - Questions: slides 1-" ++ str_of_nat num_questions) ;;
  print (lit "  - Answers: slides " ++ str_of_nat (num_questions + 1)
         ++ lit "-" ++ str_of_nat (length (slides prs))).

(** The name of the output file, as [main] derives it from [input_file]. *)
Definition output_name (input_file : str) : str :=
  let output_file := replace (lit ".txt") (lit ".pptx") input_file in
  if str_eqb output_file input_file
  then input_file ++ lit ".pptx"
  else output_file.

Definition usage : M unit :=
  print (lit "Usage: python quiz_generator.py <questions_file.txt>") ;;
  print ([NL] ++ lit "Expected format in text file:") ;;
  print (lit "  Question 1 text here?") ;;
  print (lit "  Answer 1 text here") ;;
  print (lit "  ") ;;
  print (lit "  Question 2 text here?") ;;
  print (lit "  Answer 2 text here").

Definition no_pairs_line : str :=
  lit "ERROR: No question/answer pairs found in file.".

Definition check_format_line : str :=
  lit "Check your file format - questions and answers should be separated by blank lines.".

(** [main()], with [sys.argv] as its argument. *)
Definition main (argv : list str) : M unit :=
  (if negb (length argv =? 2)%nat
   then usage ;; sys_exit 1%Z
   else ret tt) ;;
  let input_file := nth 1 argv [] in
  let output_file := output_name input_file in
  print (lit "Reading questions from: " ++ input_file) ;;
  try_except
    (qa_pairs <- parse_questions input_file ;;
     (match qa_pairs with
      | [] =>
          print no_pairs_line ;;
          print check_format_line ;;
          sys_exit 1%Z
      | _ :: _ => ret tt
      end) ;;
     print (lit "Found " ++ str_of_nat (length qa_pairs)
            ++ lit " question/answer pairs" ++ [NL]) ;;
     generate_presentation qa_pairs output_file)
    (print (lit "ERROR: File '" ++ input_file ++ lit "' not found.") ;;
     sys_exit 1%Z)
    (fun e => print (lit "ERROR: " ++ e) ;; sys_exit 1%Z).

(** Running the script: the trace and the exit status of the process. *)
Definition run (argv : list str) : list event * Z :=
  match main argv [] with
  | (t, inr _) => (t, 0%Z)
  | (t, inl (SystemExit code)) => (t, code)
  | (t, inl _) => (t, 1%Z)
  end.

End Script.

(** What a trace shows: the lines printed, the files opened, the decks
    saved. *)
Definition printed (t : list event) : list str :=
  flat_map (fun e => match e with Stdout l => [l] | _ => [] end) t.

Definition opened (t : list event) : list str :=
  flat_map (fun e => match e with OpenRead p => [p] | _ => [] end) t.

Definition saved (t : list event) : list (str * Presentation) :=
  flat_map (fun e => match e with Save p d => [(p, d)] | _ => [] end) t.

(** ** Vocabulary of the statements *)

Local Open Scope list_scope.

(** The pair a block contributes. *)
Definition pair_of_lines (lines : list str) : str * str :=
  (strip (nth 0 lines []), strip (nth 1 lines [])).

(** Nothing but spaces. *)
Definition blank (s : str) : bool := forallb isspace s.

(** Two line breaks in a row somewhere in [s]. *)
Fixpoint has_nn (s : str) : bool :=
  match s with
  | [] => false
  | _ :: r => starts_with [NL; NL] s || has_nn r
  end.

(** A block string is clean when no blank line shows inside it or where a
    separator follows it. *)
Definition clean (b : str) : Prop := has_nn (b ++ [NL]) = false.

(** A line of a block: not empty, no line break inside. *)
Definition proper_line (l : str) : bool :=
  match l with
  | [] => false
  | _ :: _ => negb (existsb (N.eqb NL) l)
  end.

(** A block: lines, the first of which shows something. *)
Definition proper_block (b : list str) : bool :=
  forallb proper_line b && negb (blank (hd [] b)).

(** The text whose blocks are [blocks]: a line break between two lines of
    a block, one empty line between two blocks. *)
Definition text_of (blocks : list (list str)) : str :=
  join [NL; NL] (map (join [NL]) blocks).

(** [z] does not begin with a line break. *)
Definition head_not_NL (z : str) : Prop :=
  match z with [] => True | c :: _ => c <> NL end.

(** The pair of a block, from the block once stripped. *)
Definition pair_of_stripped (sb : str) : str * str :=
  let lines := split [NL] sb in
  (strip (nth 0 lines []),
   if (2 <=? length lines)%nat then strip (nth 1 lines []) else []).

(** The text box the script makes of a text the library accepts. *)
Definition text_box (left top width height : Z) (wrap : option bool)
    (text : str) (size : Z) (bold : bool) : TextBox :=
  mkTextBox left top width height wrap
    (format_first size bold (paragraphs_of text)).

(** The slide [create_slide] makes for a question, and the slide the
    second loop makes for an answer, when the library accepts the texts. *)
Definition question_slide (title question : str) : Slide :=
  mkSlide dark_gray
    [text_box 5 5 90 8 None title 32 true;
     text_box 10 20 80 40 (Some true) question 28 false].

Definition answer_slide (title question answer : str) : Slide :=
  mkSlide dark_gray
    [text_box 5 5 90 8 None title 32 true;
     text_box 10 20 80 20 (Some true) question 28 false;
     text_box 10 45 80 20 (Some true) answer 28 true].

(** A string that neither begins nor ends with a space. *)
Definition trimmed (s : str) : bool :=
  match s with
  | [] => true
  | c :: _ => negb (isspace c) && negb (isspace (last s c))
  end.

(** The texts of the boxes of a slide, in order, and for each box the
    bold flags of its paragraphs. *)
Definition slide_texts (s : Slide) : list str := map tb_text (shapes s).

(** A world in which every file holds [content], every save succeeds and
    the library accepts every text. *)
Definition world_with (content : str) : world :=
  mkWorld (fun _ => inr content) (fun _ _ => None) (fun _ => None).

(** The deck [generate_presentation] hands to [save] when the library
    refuses no text. *)
Definition build_deck (qa_pairs : list (str * str)) : Presentation :=
  match saved (fst (generate_presentation (world_with []) qa_pairs [] [])) with
  | (_, deck) :: _ => deck
  | [] => new_presentation
  end.

(** The slides of a deck of which no text is refused: the question
    slides, then the answer slides. *)
Definition deck_slides (qa_pairs : list (str * str)) : list Slide :=
  map (fun '(i, (q, _)) => question_slide (slide_title i) q)
    (enumerate 1 qa_pairs)
  ++ map (fun '(i, (q, a)) => answer_slide (slide_title i) q a)
       (enumerate 1 qa_pairs).

(** The texts the first loop and the second loop assign, in order. *)
Definition pass1_texts (qa_pairs : list (str * str)) : list str :=
  flat_map (fun '(i, (question, _)) => [slide_title i; question])
    (enumerate 1 qa_pairs).

Definition pass2_texts (qa_pairs : list (str * str)) : list str :=
  flat_map (fun '(i, (question, answer)) => [slide_title i; question; answer])
    (enumerate 1 qa_pairs).

(** The message of the first text of a list that the library refuses. *)
Fixpoint first_refusal (w : world) (texts : list str) : option str :=
  match texts with
  | [] => None
  | text :: rest =>
      match text_refused w text with
      | Some msg => Some msg
      | None => first_refusal w rest
      end
  end.

(** The library accepts every text of a list. *)
Definition accepted (w : world) (texts : list str) : bool :=
  forallb
    (fun text =>
       match text_refused w text with None => true | Some _ => false end)
    texts.

(** A library that refuses the texts holding U+FFFE or U+FFFF, which XML
    forbids, with the message of the XML library, and accepts the
    others; and a world with this library in which every file holds
    [content] and every save succeeds. *)
Definition xml_message : str :=
  lit "All strings must be XML compatible: Unicode or ASCII, no NULL bytes or control characters".

Definition refuses_noncharacters (text : str) : option str :=
  if existsb (fun c => (c =? 65534) || (c =? 65535)) text
  then Some xml_message
  else None.

Definition xml_world (content : str) : world :=
  mkWorld (fun _ => inr content) (fun _ _ => None) refuses_noncharacters.

(** A paragraph on which the script has set everything it sets: justified,
    white, with a font size and a bold flag. *)
Definition formatted (p : Paragraph) : bool :=
  match p_alignment p, p_font_size p, p_font_bold p, p_font_color p with
  | Some JUSTIFY, Some _, Some _, Some (RGB 255 255 255) => true
  | _, _, _, _ => false
  end.

(** The line [main] prints once the pairs are parsed. *)
Definition found_line (n : nat) : str :=
  lit "Found " ++ str_of_nat n ++ lit " question/answer pairs" ++ [NL].

(** A printed line that does not begin with the letter C. *)
Definition not_guidance (e : event) : Prop :=
  match e with
  | Stdout (c :: _) => c <> 67%N
  | _ => True
  end.

(** An occurrence of [p] somewhere in [s]: [p in s]. *)
Fixpoint has_sub (p s : str) : bool :=
  starts_with p s
  || match s with
     | [] => false
     | _ :: r => has_sub p r
     end.

(** The lines a pair is written as in a questions file: the question,
    then the answer when there is one. *)
Definition lines_of_pair (p : str * str) : list str :=
  match snd p with
  | [] => [fst p]
  | _ :: _ => [fst p; snd p]
  end.

(** A question as it can be read back: a line that is not blank and has
    no space at either end. *)
Definition proper_question (q : str) : bool :=
  proper_line q && negb (blank q) && trimmed q.

(** An answer as it can be read back: empty, or a line with no space at
    either end. *)
Definition proper_answer (a : str) : bool :=
  match a with
  | [] => true
  | _ :: _ => proper_line a && trimmed a
  end.

(** The first lines of every run with two arguments. *)
Definition reading_trace (input : str) : list event :=
  [Stdout (lit "Reading questions from: " ++ input); OpenRead input].

(** The two progress lines of [generate_presentation], for [n] pairs. *)
Definition question_slides_line (n : nat) : str :=
  lit "Generating " ++ str_of_nat n ++ lit " question slides...".

Definition answer_slides_line (n : nat) : str :=
  lit "Generating " ++ str_of_nat n ++ lit " answer slides...".

(** What [generate_presentation] prints and saves up to the call of
    [save]. *)
Definition generating_trace (qa_pairs : list (str * str)) (out : str)
  : list event :=
  [Stdout (question_slides_line (length qa_pairs));
   Stdout (answer_slides_line (length qa_pairs));
   Save out (build_deck qa_pairs)].

(** The four lines printed after a save that succeeded, for [n] pairs. *)
Definition saved_trace (n : nat) (out : str) : list event :=
  [Stdout ([NL; check_mark] ++ lit " Presentation saved as: " ++ out);
   Stdout ([check_mark] ++ lit " Total slides: " ++ str_of_nat (2 * n));
   Stdout (lit "  - Questions: slides 1-" ++ str_of_nat n);
   Stdout (lit "  - Answers: slides " ++ str_of_nat (n + 1) ++ lit "-"
           ++ str_of_nat (2 * n))].

(** The line of the handler of [FileNotFoundError]. *)
Definition not_found_line (input : str) : str :=
  lit "ERROR: File '" ++ input ++ lit "' not found.".

(** The line of the handler of any other exception. *)
Definition error_line (msg : str) : str := lit "ERROR: " ++ msg.

(** The line an input or output error is reported with. *)
Definition io_error_line (input : str) (e : io_error) : str :=
  match e with
  | NotFound => not_found_line input
  | Failure msg => error_line msg
  end.

(** Proof steps for the script: unfolding the monad, running it one step,
    telling printed lines apart by their first character. *)
Ltac run_script :=
  unfold run, main, usage, parse_questions,
    try_except, bind, print, emit, sys_exit, raise, ret.

Ltac step :=
  cbn -[lit output_name parse_content str_of_nat build_deck
        generate_presentation question_pass answer_pass length].

Ltac lines := repeat constructor; try exact I; vm_compute; discriminate.

(** ** Sanity checks on concrete inputs *)

Example parse_two_pairs :
  parse_content (lit "Q1?" ++ [NL] ++ lit "A1" ++ [NL; NL] ++ lit "Q2?" ++ [NL] ++ lit "A2")
  = [(lit "Q1?", lit "A1"); (lit "Q2?", lit "A2")].
Proof. vm_compute. reflexivity. Qed.

Example parse_only_question :
  parse_content (lit "  OnlyQuestion? ") = [(lit "OnlyQuestion?", [])].
Proof. vm_compute. reflexivity. Qed.

Example split_three_newlines :
  split [NL; NL] (lit "a" ++ [NL; NL; NL] ++ lit "b") = [lit "a"; NL :: lit "b"].
Proof. vm_compute. reflexivity. Qed.

Example replace_all_occurrences :
  replace (lit ".txt") (lit ".pptx") (lit "a.txt.txt") = lit "a.pptx.pptx".
Proof. vm_compute. reflexivity. Qed.

Example str_of_nat_120 : str_of_nat 120 = lit "120".
Proof. vm_compute. reflexivity. Qed.

(** ** Facts about the string methods *)

Section StrFacts.

Local Open Scope list_scope.

Lemma isspace_NL : isspace NL = true.
Proof. reflexivity. Qed.

Lemma lstrip_suffix (s : str) : exists p, s = p ++ lstrip s.
Proof.
  induction s as [|c r [p Hp]]; simpl.
  - exists []. reflexivity.
  - destruct (isspace c).
    + exists (c :: p). simpl. congruence.
    + exists []. reflexivity.
Qed.

Lemma rstrip_prefix (s : str) : exists q, s = rstrip s ++ q.
Proof.
  induction s as [|c r [q Hq]]; simpl.
  - exists []. reflexivity.
  - destruct (rstrip r) as [|d r'] eqn:E.
    + destruct (isspace c).
      * exists (c :: r). reflexivity.
      * exists r. simpl in Hq. simpl. congruence.
    + exists q. simpl. simpl in Hq. congruence.
Qed.

Lemma lstrip_In (s : str) (c : char) : In c (lstrip s) -> In c s.
Proof.
  destruct (lstrip_suffix s) as [p Hp]. intros H.
  rewrite Hp. apply in_or_app. right. exact H.
Qed.

Lemma rstrip_In (s : str) (c : char) : In c (rstrip s) -> In c s.
Proof.
  destruct (rstrip_prefix s) as [q Hq]. intros H.
  rewrite Hq. apply in_or_app. left. exact H.
Qed.

Lemma strip_In (s : str) (c : char) : In c (strip s) -> In c s.
Proof. intros H. apply lstrip_In, rstrip_In, H. Qed.

Lemma lstrip_head (s : str) (c : char) (r : str) :
  lstrip s = c :: r -> isspace c = false.
Proof.
  induction s as [|a s IH]; simpl; [discriminate|].
  destruct (isspace a) eqn:E; [exact IH|].
  intros H. inversion H. subst. exact E.
Qed.

Lemma rstrip_head (s : str) (c : char) (r : str) :
  rstrip s = c :: r -> exists r', s = c :: r'.
Proof.
  destruct s as [|a s]; simpl; [discriminate|].
  destruct (rstrip s); [destruct (isspace a)|]; intros H;
    inversion H; subst; eauto.
Qed.

Lemma rstrip_last (s r : str) (c : char) :
  rstrip s = r ++ [c] -> isspace c = false.
Proof.
  revert r. induction s as [|a s IH]; intros r; simpl.
  - destruct r; discriminate.
  - destruct (rstrip s) as [|d r'] eqn:E.
    + destruct (isspace a) eqn:Ea.
      * destruct r; discriminate.
      * destruct r as [|x [|y r]]; simpl; intros H; inversion H; subst.
        exact Ea.
    + destruct r as [|x r]; simpl; intros H; inversion H; subst.
      eapply IH. eassumption.
Qed.

(** A stripped string neither begins nor ends with a space. *)
Lemma strip_head (s : str) (c : char) (r : str) :
  strip s = c :: r -> isspace c = false.
Proof.
  unfold strip. intros H.
  destruct (rstrip_head _ _ _ H) as [r' Hr'].
  eapply lstrip_head. eassumption.
Qed.

Lemma strip_last (s r : str) (c : char) :
  strip s = r ++ [c] -> isspace c = false.
Proof. unfold strip. apply rstrip_last. Qed.

(** A split always has a piece. *)
Lemma split_from_nonempty (sep : str) (k : nat) (s : str) :
  split_from sep k s <> [].
Proof.
  revert k. induction s as [|c r IH]; intros k; simpl; [discriminate|].
  destruct k; [|apply IH].
  destruct (starts_with sep (c :: r)); [discriminate|].
  unfold push. destruct (split_from sep 0 r); discriminate.
Qed.

Lemma split_length (sep s : str) : (1 <= length (split sep s))%nat.
Proof.
  unfold split. pose proof (split_from_nonempty sep 0 s) as H.
  destruct (split_from sep 0 s); [congruence | simpl; lia].
Qed.

(** Splitting on the line break: the two equations of the scan. *)
Lemma split_NL_nil : split [NL] [] = [[]].
Proof. reflexivity. Qed.

Lemma split_NL_cons (c : char) (r : str) :
  split [NL] (c :: r) =
  if (NL =? c)%N then [] :: split [NL] r else push c (split [NL] r).
Proof.
  unfold split. cbn [split_from starts_with length Nat.sub].
  rewrite andb_true_r. reflexivity.
Qed.

(** No piece of a split on the line break holds a line break. *)
Lemma split_NL_no_NL (s : str) :
  Forall (fun l => ~ In NL l) (split [NL] s).
Proof.
  induction s as [|c r IH].
  - rewrite split_NL_nil. constructor; [intros []|constructor].
  - rewrite split_NL_cons. destruct (NL =? c)%N eqn:E.
    + constructor; [intros []|exact IH].
    + apply N.eqb_neq in E.
      destruct (split [NL] r) as [|p ps]; simpl.
      * constructor; [|constructor]. intros [H|[]]. congruence.
      * inversion IH; subst. constructor; [|assumption].
        intros [H|H]; [congruence|contradiction].
Qed.

(** A string without line break is one line. *)
Lemma split_NL_one_line (s : str) : ~ In NL s -> split [NL] s = [s].
Proof.
  induction s as [|c r IH]; intros H; [reflexivity|].
  rewrite split_NL_cons.
  destruct (NL =? c)%N eqn:E.
  - apply N.eqb_eq in E. exfalso. apply H. left. congruence.
  - rewrite IH; [reflexivity|]. intros Hin. apply H. right. exact Hin.
Qed.

(** The models of the built-ins agree with their usual descriptions:
    [rstrip] is [lstrip] from the other end, joining the pieces of a split
    with the separator gives the string back, and a replacement is a split
    on the old string joined with the new one. *)
Lemma lstrip_snoc (x : str) (c : char) :
  lstrip (x ++ [c]) =
  match lstrip x with
  | [] => if isspace c then [] else [c]
  | _ :: _ => lstrip x ++ [c]
  end.
Proof.
  induction x as [|a x IH]; simpl; [reflexivity|].
  destruct (isspace a); [exact IH | reflexivity].
Qed.

Lemma rstrip_rev (s : str) : rstrip s = rev (lstrip (rev s)).
Proof.
  induction s as [|c r IH]; [reflexivity|].
  cbn [rstrip rev]. rewrite lstrip_snoc, IH.
  destruct (lstrip (rev r)) as [|d l]; cbn [rev].
  - destruct (isspace c); reflexivity.
  - destruct (rev l ++ [d]) eqn:E.
    + destruct (rev l); discriminate.
    + rewrite <- E. rewrite rev_app_distr. cbn [rev app].
      rewrite E. reflexivity.
Qed.

Lemma starts_with_app (p s : str) :
  starts_with p s = true -> s = p ++ skipn (length p) s.
Proof.
  revert s. induction p as [|a p IH]; intros s H; [reflexivity|].
  destruct s as [|b s]; [discriminate|].
  cbn [starts_with] in H. apply andb_true_iff in H. destruct H as [E H].
  apply N.eqb_eq in E. subst b. cbn [length skipn app].
  f_equal. apply IH, H.
Qed.

Lemma join_push (sep : str) (c : char) (pieces : list str) :
  pieces <> [] -> join sep (push c pieces) = c :: join sep pieces.
Proof.
  destruct pieces as [|p [|q ps]]; [congruence|reflexivity|reflexivity].
Qed.

Lemma join_nil_cons (sep : str) (pieces : list str) :
  pieces <> [] -> join sep ([] :: pieces) = sep ++ join sep pieces.
Proof. destruct pieces; [congruence|reflexivity]. Qed.

Lemma join_split_from (sep : str) (k : nat) (s : str) :
  sep <> [] -> join sep (split_from sep k s) = skipn k s.
Proof.
  intros Hsep. revert k. induction s as [|c r IH]; intros k.
  - destruct k; reflexivity.
  - cbn [split_from]. destruct k as [|k]; [|apply IH].
    destruct (starts_with sep (c :: r)) eqn:E.
    + rewrite join_nil_cons by apply split_from_nonempty.
      rewrite IH. apply starts_with_app in E.
      destruct sep as [|a sep]; [congruence|].
      cbn [length skipn app] in E. cbn [length Nat.sub skipn].
      rewrite Nat.sub_0_r. injection E as -> E. cbn [app skipn].
      f_equal. exact (eq_sym E).
    + rewrite join_push by apply split_from_nonempty.
      rewrite IH. reflexivity.
Qed.

Lemma join_split (sep s : str) : sep <> [] -> join sep (split sep s) = s.
Proof. intros H. apply (join_split_from sep 0 s H). Qed.

Lemma replace_from_join (old new : str) (k : nat) (s : str) :
  replace_from old new k s = join new (split_from old k s).
Proof.
  revert k. induction s as [|c r IH]; intros k; [reflexivity|].
  cbn [replace_from split_from]. destruct k as [|k]; [|apply IH].
  destruct (starts_with old (c :: r)).
  - rewrite join_nil_cons by apply split_from_nonempty.
    rewrite IH. reflexivity.
  - rewrite join_push by apply split_from_nonempty.
    rewrite IH. reflexivity.
Qed.

Lemma replace_join (old new s : str) :
  replace old new s = join new (split old s).
Proof. apply replace_from_join. Qed.

Lemma str_eqb_eq (a b : str) : str_eqb a b = true <-> a = b.
Proof.
  revert b. induction a as [|x a IH]; intros [|y b]; simpl;
    try (split; [discriminate|discriminate]); [tauto|].
  rewrite andb_true_iff, N.eqb_eq, IH.
  split; [intros [-> ->]; reflexivity | intros H; inversion H; auto].
Qed.

End StrFacts.

(** ** Facts about the parser *)

Section ParserFacts.

Local Open Scope list_scope.

(** The loop body appends; a block always has a first line, so it always
    appends exactly one pair. *)
Lemma parse_block_one (acc : list (str * str)) (block : str) :
  parse_block acc block =
  acc ++ [(strip (nth 0 (lines_of block) []),
           if (2 <=? length (lines_of block))%nat
           then strip (nth 1 (lines_of block) []) else [])].
Proof.
  unfold parse_block, lines_of.
  pose proof (split_length [NL] (strip block)) as H.
  destruct (2 <=? length (split [NL] (strip block)))%nat eqn:E2;
    [reflexivity|].
  apply Nat.leb_gt in E2.
  replace (length (split [NL] (strip block)) =? 1)%nat with true
    by (symmetry; apply Nat.eqb_eq; lia).
  reflexivity.
Qed.

Lemma fold_parse_block (blocks : list str) (acc : list (str * str)) :
  fold_left parse_block blocks acc =
  acc ++ flat_map (parse_block []) blocks.
Proof.
  revert acc. induction blocks as [|b bs IH]; intros acc; simpl.
  - rewrite app_nil_r. reflexivity.
  - rewrite IH, (parse_block_one acc), (parse_block_one []).
    simpl. rewrite <- app_assoc. reflexivity.
Qed.

Lemma parse_content_flat_map (content : str) :
  parse_content content = flat_map (parse_block []) (blocks_of content).
Proof. unfold parse_content. rewrite fold_parse_block. reflexivity. Qed.

Lemma parse_content_length (content : str) :
  length (parse_content content) = length (blocks_of content).
Proof.
  rewrite parse_content_flat_map.
  induction (blocks_of content) as [|b bs IH]; simpl; [reflexivity|].
  rewrite parse_block_one. simpl. rewrite IH. reflexivity.
Qed.

End ParserFacts.

(** ** Texts assembled from lines *)

Section Assembled.

Local Open Scope list_scope.

Lemma lstrip_nil_iff (s : str) : lstrip s = [] <-> blank s = true.
Proof.
  induction s as [|c r IH]; simpl; [tauto|].
  destruct (isspace c); simpl; [exact IH|].
  split; discriminate.
Qed.

Lemma rstrip_nil_iff (s : str) : rstrip s = [] <-> blank s = true.
Proof.
  induction s as [|c r IH]; simpl; [tauto|].
  destruct (rstrip r) as [|d r'].
  - destruct (isspace c); simpl.
    + tauto.
    + split; discriminate.
  - rewrite andb_true_iff. split; [discriminate|].
    intros [_ H]. apply IH in H. discriminate.
Qed.

Lemma lstrip_app (x y : str) :
  blank x = false -> lstrip (x ++ y) = lstrip x ++ y.
Proof.
  induction x as [|c r IH]; simpl; [discriminate|].
  destruct (isspace c); simpl; [exact IH | reflexivity].
Qed.

Lemma rstrip_app (x y : str) :
  rstrip (x ++ y) =
  match rstrip y with [] => rstrip x | _ :: _ => x ++ rstrip y end.
Proof.
  induction x as [|c r IH]; simpl.
  - destruct (rstrip y); reflexivity.
  - rewrite IH. destruct (rstrip y) as [|d y'].
    + reflexivity.
    + destruct (r ++ d :: y') eqn:E; [|reflexivity].
      destruct r; discriminate.
Qed.

Lemma lstrip_idem (s : str) : lstrip (lstrip s) = lstrip s.
Proof.
  induction s as [|c r IH]; simpl; [reflexivity|].
  destruct (isspace c) eqn:E; [exact IH|]. simpl. rewrite E. reflexivity.
Qed.

Lemma rstrip_idem (s : str) : rstrip (rstrip s) = rstrip s.
Proof.
  induction s as [|c r IH]; simpl; [reflexivity|].
  destruct (rstrip r) as [|d r'] eqn:E.
  - destruct (isspace c) eqn:Ec; simpl; [reflexivity|]. rewrite Ec. reflexivity.
  - simpl in IH. simpl. destruct (rstrip r') as [|e r''] eqn:E'.
    + destruct (isspace d); [discriminate|]. inversion IH; subst. reflexivity.
    + rewrite IH. reflexivity.
Qed.

Lemma lstrip_rstrip (s : str) : lstrip (rstrip s) = rstrip (lstrip s).
Proof.
  induction s as [|c r IH]; simpl; [reflexivity|].
  destruct (isspace c) eqn:Ec.
  - destruct (rstrip r) as [|d r'] eqn:E.
    + rewrite <- IH. reflexivity.
    + simpl. rewrite Ec. exact IH.
  - simpl. destruct (rstrip r) as [|d r'] eqn:E; simpl; rewrite Ec; reflexivity.
Qed.

Lemma strip_lstrip (s : str) : strip (lstrip s) = strip s.
Proof. unfold strip. rewrite lstrip_idem. reflexivity. Qed.

Lemma strip_rstrip (s : str) : strip (rstrip s) = strip s.
Proof. unfold strip. rewrite lstrip_rstrip, rstrip_idem. reflexivity. Qed.

Lemma strip_strip (s : str) : strip (strip s) = strip s.
Proof. unfold strip at 2. rewrite strip_rstrip, strip_lstrip. reflexivity. Qed.

Lemma strip_blank (s : str) : blank s = true -> strip s = [].
Proof.
  intros H. unfold strip. apply lstrip_nil_iff in H. rewrite H. reflexivity.
Qed.

Lemma blank_app (x y : str) : blank (x ++ y) = blank x && blank y.
Proof. apply forallb_app. Qed.

Lemma split_NL_app (x y : str) :
  ~ In NL x -> split [NL] (x ++ NL :: y) = x :: split [NL] y.
Proof.
  induction x as [|c r IH]; intros H; simpl.
  - rewrite split_NL_cons. reflexivity.
  - rewrite split_NL_cons.
    destruct (NL =? c)%N eqn:E.
    + apply N.eqb_eq in E. exfalso. apply H. left. congruence.
    + rewrite IH; [reflexivity|]. intros Hin. apply H. right. exact Hin.
Qed.

Lemma split_NN_cons (c : char) (r : str) :
  split [NL; NL] (c :: r) =
  if starts_with [NL; NL] (c :: r)
  then [] :: split_from [NL; NL] 1 r
  else push c (split [NL; NL] r).
Proof. reflexivity. Qed.

Lemma split_NN_sep (r : str) :
  split [NL; NL] (NL :: NL :: r) = [] :: split [NL; NL] r.
Proof. reflexivity. Qed.

Lemma starts_with_NN_app (c : char) (x y : str) :
  starts_with [NL; NL] (c :: x ++ NL :: y) =
  starts_with [NL; NL] (c :: x ++ [NL]).
Proof. destruct x; reflexivity. Qed.

Lemma split_NN_app (x y : str) :
  has_nn (x ++ [NL]) = false ->
  split [NL; NL] (x ++ NL :: NL :: y) = x :: split [NL; NL] y.
Proof.
  induction x as [|c r IH]; intros H.
  - apply split_NN_sep.
  - change ((c :: r) ++ [NL]) with (c :: r ++ [NL]) in H.
    cbn [has_nn] in H. apply orb_false_iff in H. destruct H as [H1 H2].
    change ((c :: r) ++ NL :: NL :: y) with (c :: r ++ NL :: NL :: y).
    rewrite split_NN_cons, starts_with_NN_app, H1, (IH H2).
    reflexivity.
Qed.

Lemma split_NN_single (x : str) :
  has_nn x = false -> split [NL; NL] x = [x].
Proof.
  induction x as [|c r IH]; intros H; [reflexivity|].
  cbn [has_nn] in H. apply orb_false_iff in H. destruct H as [H1 H2].
  rewrite split_NN_cons, H1, (IH H2). reflexivity.
Qed.

Lemma has_nn_suffix (x y : str) : has_nn (x ++ y) = false -> has_nn y = false.
Proof.
  induction x as [|c r IH]; intros H; [exact H|].
  change ((c :: r) ++ y) with (c :: r ++ y) in H.
  cbn [has_nn] in H. apply orb_false_iff in H. tauto.
Qed.

Lemma has_nn_snoc (x : str) :
  has_nn x = false ->
  (forall r c, x = r ++ [c] -> c <> NL) ->
  has_nn (x ++ [NL]) = false.
Proof.
  induction x as [|c r IH]; intros H Hl; [reflexivity|].
  cbn [has_nn] in H. apply orb_false_iff in H. destruct H as [H1 H2].
  change ((c :: r) ++ [NL]) with (c :: r ++ [NL]).
  cbn [has_nn]. apply orb_false_iff. split.
  - destruct r as [|d r'].
    + cbn [app starts_with]. specialize (Hl [] c eq_refl).
      apply N.eqb_neq in Hl. rewrite N.eqb_sym in Hl. rewrite Hl. reflexivity.
    + exact H1.
  - apply IH; [exact H2|]. intros r0 c0 E. apply (Hl (c :: r0) c0).
    rewrite E. reflexivity.
Qed.

Lemma has_nn_prefix (x y : str) :
  has_nn (x ++ y) = false -> has_nn x = false.
Proof.
  induction x as [|c r IH]; intros H; [reflexivity|].
  change ((c :: r) ++ y) with (c :: r ++ y) in H.
  cbn [has_nn] in *. apply orb_false_iff in H. destruct H as [H1 H2].
  apply orb_false_iff. split; [|apply IH, H2].
  destruct r as [|d r']; [|exact H1].
  cbn [starts_with]. rewrite andb_false_r. reflexivity.
Qed.

Lemma clean_lstrip (b : str) : clean b -> clean (lstrip b).
Proof.
  unfold clean. intros H. destruct (lstrip_suffix b) as [p Hp].
  rewrite Hp, <- app_assoc in H. exact (has_nn_suffix _ _ H).
Qed.

Lemma clean_rstrip (b : str) : clean b -> clean (rstrip b).
Proof.
  unfold clean. intros H. apply has_nn_snoc.
  - destruct (rstrip_prefix b) as [q Hq].
    rewrite Hq, <- app_assoc in H. exact (has_nn_prefix _ _ H).
  - intros r c E Hc. apply rstrip_last in E. subst c.
    rewrite isspace_NL in E. discriminate.
Qed.

Lemma clean_no_nn (b : str) : clean b -> has_nn b = false.
Proof. apply has_nn_prefix. Qed.

Lemma proper_line_spec (l : str) :
  proper_line l = true -> l <> [] /\ ~ In NL l.
Proof.
  destruct l as [|c r]; [discriminate|]. unfold proper_line.
  intros H. split; [discriminate|]. intros Hin.
  apply negb_true_iff in H.
  assert (existsb (N.eqb NL) (c :: r) = true) as E.
  { apply existsb_exists. exists NL. split; [exact Hin|apply N.eqb_refl]. }
  congruence.
Qed.

Lemma join_cons2 (sep p q : str) (ps : list str) :
  join sep (p :: q :: ps) = p ++ sep ++ join sep (q :: ps).
Proof. reflexivity. Qed.

Lemma has_nn_line (l z : str) :
  l <> [] -> ~ In NL l -> has_nn z = false -> head_not_NL z ->
  has_nn (l ++ NL :: z) = false.
Proof.
  intros Hne Hnl Hz Hh. induction l as [|c r IH]; [congruence|].
  assert ((NL =? c)%N = false) as Ec.
  { apply N.eqb_neq. intros E. apply Hnl. left. congruence. }
  change ((c :: r) ++ NL :: z) with (c :: r ++ NL :: z).
  cbn [has_nn]. apply orb_false_iff. split.
  - destruct r; cbn [app starts_with]; rewrite Ec; reflexivity.
  - destruct r as [|d r'].
    + cbn [app has_nn]. rewrite Hz, orb_false_r.
      destruct z as [|a z']; [reflexivity|].
      cbn [starts_with]. simpl in Hh. apply N.eqb_neq in Hh.
      rewrite (N.eqb_sym NL a), Hh, andb_false_r. reflexivity.
    + apply IH; [discriminate|]. intros Hin. apply Hnl. right. exact Hin.
Qed.

Lemma head_not_NL_line (l z : str) :
  l <> [] -> ~ In NL l -> head_not_NL (l ++ z).
Proof.
  destruct l as [|c r]; [congruence|]. intros _ H. simpl.
  intros E. apply H. left. exact E.
Qed.

Lemma clean_join_lines (b : list str) :
  b <> [] -> forallb proper_line b = true ->
  has_nn (join [NL] b ++ [NL]) = false /\ head_not_NL (join [NL] b ++ [NL]).
Proof.
  induction b as [|l [|l' ls] IH]; intros Hne H; [congruence| |].
  - simpl in H. rewrite andb_true_r in H.
    destruct (proper_line_spec _ H) as [H1 H2].
    cbn [join]. split.
    + apply has_nn_line; simpl; auto.
    + apply head_not_NL_line; assumption.
  - cbn [forallb] in H. apply andb_true_iff in H. destruct H as [Hl H].
    destruct (proper_line_spec _ Hl) as [H1 H2].
    destruct IH as [IH1 IH2]; [discriminate|exact H|].
    rewrite join_cons2. rewrite <- !app_assoc.
    change ([NL] ++ join [NL] (l' :: ls) ++ [NL])
      with (NL :: (join [NL] (l' :: ls) ++ [NL])).
    split.
    + apply has_nn_line; assumption.
    + apply head_not_NL_line; assumption.
Qed.

Lemma proper_block_clean (b : list str) :
  proper_block b = true -> clean (join [NL] b) /\ blank (join [NL] b) = false.
Proof.
  unfold proper_block. intros H. apply andb_true_iff in H.
  destruct H as [Hl Hb]. apply negb_true_iff in Hb.
  assert (b <> []) as Hne by (intros ->; discriminate).
  split.
  - apply clean_join_lines; assumption.
  - destruct b as [|l [|l' ls]]; [congruence|exact Hb|].
    rewrite join_cons2, blank_app. simpl in Hb. rewrite Hb. reflexivity.
Qed.

Lemma rstrip_nonblank (x y : str) :
  blank y = false -> rstrip (x ++ y) = x ++ rstrip y.
Proof.
  intros H. rewrite rstrip_app. destruct (rstrip y) eqn:E; [|reflexivity].
  apply rstrip_nil_iff in E. congruence.
Qed.

Lemma blank_join (bs : list str) :
  bs <> [] -> Forall (fun b => blank b = false) bs ->
  blank (join [NL; NL] bs) = false.
Proof.
  intros Hne H. destruct bs as [|b [|b' bs']]; [congruence| |];
    inversion H; subst.
  - assumption.
  - rewrite join_cons2, blank_app.
    replace (blank b) with false by congruence. reflexivity.
Qed.

(** Splitting the right-stripped text gives the blocks back, up to the
    strip of each. *)
Lemma split_rstrip_join (bs : list str) :
  bs <> [] -> Forall clean bs -> Forall (fun b => blank b = false) bs ->
  map strip (split [NL; NL] (rstrip (join [NL; NL] bs))) = map strip bs.
Proof.
  induction bs as [|b [|b' bs'] IH]; intros Hne Hc Hb; [congruence| |].
  - cbn [join]. inversion Hc; subst.
    rewrite split_NN_single.
    + simpl. rewrite strip_rstrip. reflexivity.
    + apply clean_no_nn, clean_rstrip. assumption.
  - inversion Hc; subst. inversion Hb; subst.
    rewrite join_cons2.
    rewrite rstrip_nonblank.
    2:{ rewrite blank_app. rewrite blank_join; [apply andb_false_r| |];
        [discriminate|assumption]. }
    rewrite rstrip_nonblank by (apply blank_join; [discriminate|assumption]).
    change ([NL; NL] ++ rstrip (join [NL; NL] (b' :: bs')))
      with (NL :: NL :: rstrip (join [NL; NL] (b' :: bs'))).
    rewrite split_NN_app by assumption.
    cbn [map]. f_equal. apply IH; [discriminate|assumption|assumption].
Qed.

Lemma blocks_of_join (bs : list str) :
  bs <> [] -> Forall clean bs -> Forall (fun b => blank b = false) bs ->
  map strip (blocks_of (join [NL; NL] bs)) = map strip bs.
Proof.
  intros Hne Hc Hb. unfold blocks_of, strip at 2.
  destruct bs as [|b [|b' bs']]; [congruence| |].
  - cbn [join]. inversion Hc; subst.
    rewrite split_NN_single.
    + simpl. fold (strip b). rewrite strip_strip. reflexivity.
    + apply clean_no_nn, clean_rstrip, clean_lstrip. assumption.
  - inversion Hc; subst. inversion Hb; subst.
    rewrite join_cons2, lstrip_app by assumption.
    rewrite rstrip_nonblank.
    2:{ rewrite blank_app. rewrite blank_join; [apply andb_false_r| |];
        [discriminate|assumption]. }
    rewrite rstrip_nonblank by (apply blank_join; [discriminate|assumption]).
    change ([NL; NL] ++ rstrip (join [NL; NL] (b' :: bs')))
      with (NL :: NL :: rstrip (join [NL; NL] (b' :: bs'))).
    rewrite split_NN_app by (apply clean_lstrip; assumption).
    cbn [map]. rewrite strip_lstrip. f_equal.
    apply split_rstrip_join; [discriminate|assumption|assumption].
Qed.

Lemma parse_block_stripped (b : str) :
  parse_block [] b = [pair_of_stripped (strip b)].
Proof. rewrite parse_block_one. reflexivity. Qed.

Lemma flat_map_parse_block (bs : list str) :
  flat_map (parse_block []) bs = map pair_of_stripped (map strip bs).
Proof.
  induction bs as [|b bs IH]; [reflexivity|].
  cbn [flat_map map]. rewrite parse_block_stripped, IH. reflexivity.
Qed.

Lemma not_In_strip (s : str) : ~ In NL s -> ~ In NL (strip s).
Proof. intros H Hin. apply H, strip_In, Hin. Qed.

(** The first line of what is left of [l], a line break and more lines,
    once the trailing spaces are gone, strips to what [l] strips to. *)
Lemma first_line_rstrip (l z : str) :
  ~ In NL l ->
  strip (nth 0 (split [NL] (rstrip (l ++ NL :: z))) []) = strip l.
Proof.
  intros H. rewrite rstrip_app.
  destruct (rstrip (NL :: z)) as [|d r'] eqn:E.
  - rewrite split_NL_one_line.
    + simpl. apply strip_rstrip.
    + intros Hin. apply H, rstrip_In, Hin.
  - destruct (rstrip_head _ _ _ E) as [r'' Hr]. inversion Hr; subst.
    rewrite split_NL_app by assumption. reflexivity.
Qed.

Lemma first_line_rstrip_join (l : str) (ls : list str) :
  ~ In NL l ->
  strip (nth 0 (split [NL] (rstrip (join [NL] (l :: ls)))) []) = strip l.
Proof.
  intros H. destruct ls as [|l' ls'].
  - cbn [join]. rewrite split_NL_one_line.
    + simpl. apply strip_rstrip.
    + intros Hin. apply H, rstrip_In, Hin.
  - rewrite join_cons2. apply first_line_rstrip. assumption.
Qed.

Lemma blank_join_head (l : str) (ls : list str) :
  blank (join [NL] (l :: ls)) = true -> blank l = true.
Proof.
  destruct ls as [|l' ls']; [trivial|].
  rewrite join_cons2, blank_app. intros H.
  apply andb_true_iff in H. tauto.
Qed.

Lemma strip_first_line (l z : str) :
  blank l = false ->
  strip (l ++ NL :: z) =
  match rstrip z with
  | [] => strip l
  | _ :: _ => lstrip l ++ NL :: rstrip z
  end.
Proof.
  intros H. unfold strip. rewrite lstrip_app, rstrip_app by assumption.
  cbn [rstrip]. rewrite isspace_NL. destruct (rstrip z); reflexivity.
Qed.

(** A block assembled from its lines gives the pair of its first two
    lines, the second being absent when there is one line only. *)
Lemma pair_of_block (b : list str) :
  proper_block b = true ->
  pair_of_stripped (strip (join [NL] b)) = pair_of_lines b.
Proof.
  unfold proper_block. intros H. apply andb_true_iff in H.
  destruct H as [Hl Hb]. apply negb_true_iff in Hb.
  destruct b as [|l1 rest]; [discriminate|].
  cbn [forallb] in Hl. apply andb_true_iff in Hl. destruct Hl as [Hl1 Hrest].
  destruct (proper_line_spec _ Hl1) as [_ Hnl1]. simpl in Hb.
  unfold pair_of_stripped, pair_of_lines.
  destruct rest as [|l2 rest'].
  - cbn [join nth].
    rewrite split_NL_one_line by (apply not_In_strip; assumption).
    simpl. rewrite strip_strip. reflexivity.
  - cbn [forallb] in Hrest. apply andb_true_iff in Hrest.
    destruct Hrest as [Hl2 _].
    destruct (proper_line_spec _ Hl2) as [_ Hnl2].
    cbn [nth]. rewrite join_cons2.
    change ([NL] ++ join [NL] (l2 :: rest'))
      with (NL :: join [NL] (l2 :: rest')).
    rewrite strip_first_line by assumption.
    destruct (rstrip (join [NL] (l2 :: rest'))) as [|d r'] eqn:E.
    + (* everything after the first line is blank *)
      rewrite split_NL_one_line by (apply not_In_strip; assumption).
      simpl. rewrite strip_strip.
      apply rstrip_nil_iff, blank_join_head in E.
      rewrite (strip_blank _ E). reflexivity.
    + rewrite split_NL_app by (intros Hin; apply Hnl1, lstrip_In, Hin).
      pose proof (split_length [NL] (d :: r')) as Hlen.
      replace (2 <=? length (lstrip l1 :: split [NL] (d :: r')))%nat
        with true by (symmetry; apply Nat.leb_le; simpl; lia).
      cbn [nth]. rewrite <- E.
      rewrite first_line_rstrip_join by assumption.
      rewrite strip_lstrip. reflexivity.
Qed.

(** The parser on a text assembled from proper blocks. *)
Lemma parse_text_of (blocks : list (list str)) :
  blocks <> [] ->
  forallb proper_block blocks = true ->
  parse_content (text_of blocks) = map pair_of_lines blocks.
Proof.
  intros Hne H. rewrite parse_content_flat_map, flat_map_parse_block.
  unfold text_of. rewrite forallb_forall in H.
  rewrite blocks_of_join.
  - rewrite !map_map. apply map_ext_in. intros b Hb.
    apply pair_of_block, H, Hb.
  - destruct blocks; [congruence|discriminate].
  - apply Forall_forall. intros x Hx. apply in_map_iff in Hx.
    destruct Hx as [b [<- Hb]]. apply proper_block_clean, H, Hb.
  - apply Forall_forall. intros x Hx. apply in_map_iff in Hx.
    destruct Hx as [b [<- Hb]]. apply proper_block_clean, H, Hb.
Qed.

End Assembled.

(** ** Facts about the deck *)

Section DeckFacts.

Local Open Scope list_scope.

Lemma enumerate_length (i : nat) (qa : list (str * str)) :
  length (enumerate i qa) = length qa.
Proof.
  unfold enumerate. rewrite length_combine, length_seq. apply Nat.min_id.
Qed.


Lemma map_app_deck (qa : list (str * str)) :
  deck_slides qa =
  map (fun '(i, (q, _)) => question_slide (slide_title i) q) (enumerate 1 qa)
  ++ map (fun '(i, (q, a)) => answer_slide (slide_title i) q a)
       (enumerate 1 qa).
Proof. reflexivity. Qed.

Lemma deck_slides_length (qa : list (str * str)) :
  length (deck_slides qa) = (2 * length qa)%nat.
Proof.
  unfold deck_slides. rewrite length_app, !length_map, enumerate_length. lia.
Qed.

Lemma first_refusal_app (w : world) (a b : list str) :
  first_refusal w (a ++ b) =
  match first_refusal w a with
  | Some msg => Some msg
  | None => first_refusal w b
  end.
Proof.
  induction a as [|x a IH]; [reflexivity|]. simpl.
  destruct (text_refused w x); [reflexivity|exact IH].
Qed.

Lemma accepted_first_refusal (w : world) (texts : list str) :
  accepted w texts = true <-> first_refusal w texts = None.
Proof.
  unfold accepted. induction texts as [|x r IH]; simpl; [tauto|].
  destruct (text_refused w x); simpl; [|exact IH].
  split; discriminate.
Qed.

(** A text refused in the first pass is refused in the second. *)
Lemma first_refusal_passes (w : world) (qa : list (str * str)) :
  first_refusal w (pass2_texts qa) = None ->
  first_refusal w (pass1_texts qa) = None.
Proof.
  unfold pass1_texts, pass2_texts.
  induction (enumerate 1 qa) as [|[i [q a]] l IH]; [reflexivity|].
  cbn [flat_map app first_refusal].
  destruct (text_refused w (slide_title i)); [discriminate|].
  destruct (text_refused w q); [discriminate|].
  destruct (text_refused w a); [discriminate|]. exact IH.
Qed.

Lemma add_textbox_run (w : world) (left top width height : Z)
    (wrap : option bool) (text : str) (size : Z) (bold : bool)
    (t : list event) :
  add_textbox w left top width height wrap text size bold t =
  match text_refused w text with
  | Some msg => (t, inl (Exception msg))
  | None => (t, inr (text_box left top width height wrap text size bold))
  end.
Proof.
  unfold add_textbox, set_text, bind, raise, ret.
  destruct (text_refused w text); reflexivity.
Qed.

(** The first loop, on any list of numbered pairs. *)
Lemma question_loop (w : world) (l : list (nat * (str * str)))
    (prs : Presentation) (t : list event) :
  for_each l
    (fun prs '(i, (question, answer)) =>
       let title := slide_title i in
       bind (create_slide w prs title question false)
            (fun r => ret (fst r)))
    prs t =
  match first_refusal w
          (flat_map (fun '(i, (question, _)) => [slide_title i; question]) l)
  with
  | Some msg => (t, inl (Exception msg))
  | None =>
      (t, inr (mkPresentation (slide_width prs) (slide_height prs)
                 (slides prs
                  ++ map (fun '(i, (q, _)) => question_slide (slide_title i) q)
                       l)))
  end.
Proof.
  revert prs. induction l as [|[i [q a]] l IH]; intros prs.
  - cbn. rewrite app_nil_r. destruct prs; reflexivity.
  - cbn [for_each flat_map app first_refusal map].
    unfold bind at 1 2. unfold create_slide. unfold bind at 1.
    rewrite add_textbox_run.
    destruct (text_refused w (slide_title i)); [reflexivity|].
    unfold bind at 1. rewrite add_textbox_run.
    destruct (text_refused w q); [reflexivity|].
    unfold ret at 1 2. cbn [fst]. rewrite IH.
    destruct (first_refusal w _); [reflexivity|].
    cbn [add_slide slide_width slide_height slides].
    rewrite <- app_assoc. reflexivity.
Qed.

(** The second loop. *)
Lemma answer_loop (w : world) (l : list (nat * (str * str)))
    (prs : Presentation) (t : list event) :
  for_each l
    (fun prs '(i, (question, answer)) =>
       let title := slide_title i in
       bind (add_textbox w 5 5 90 8 None title 32 true) (fun title_box =>
       bind (add_textbox w 10 20 80 20 (Some true) question 28 false)
         (fun q_box =>
       bind (add_textbox w 10 45 80 20 (Some true) answer 28 true)
         (fun a_box =>
       ret (add_slide prs (mkSlide dark_gray [title_box; q_box; a_box]))))))
    prs t =
  match first_refusal w
          (flat_map
             (fun '(i, (question, answer)) => [slide_title i; question; answer])
             l)
  with
  | Some msg => (t, inl (Exception msg))
  | None =>
      (t, inr (mkPresentation (slide_width prs) (slide_height prs)
                 (slides prs
                  ++ map (fun '(i, (q, a)) => answer_slide (slide_title i) q a)
                       l)))
  end.
Proof.
  revert prs. induction l as [|[i [q a]] l IH]; intros prs.
  - cbn. rewrite app_nil_r. destruct prs; reflexivity.
  - cbn [for_each flat_map app first_refusal map].
    unfold bind at 1 2. rewrite add_textbox_run.
    destruct (text_refused w (slide_title i)); [reflexivity|].
    unfold bind at 1. rewrite add_textbox_run.
    destruct (text_refused w q); [reflexivity|].
    unfold bind at 1. rewrite add_textbox_run.
    destruct (text_refused w a); [reflexivity|].
    unfold ret at 1. rewrite IH.
    destruct (first_refusal w _); [reflexivity|].
    cbn [add_slide slide_width slide_height slides].
    rewrite <- app_assoc. reflexivity.
Qed.

Lemma bind_run {A B} (m : M A) (k : A -> M B) (t : list event) :
  bind m k t =
  match m t with
  | (t', inr a) => k a t'
  | (t', inl e) => (t', inl e)
  end.
Proof. reflexivity. Qed.

Lemma print_run (line : str) (t : list event) :
  print line t = (t ++ [Stdout line], inr tt).
Proof. reflexivity. Qed.

Lemma emit_run (e : event) (t : list event) :
  emit e t = (t ++ [e], inr tt).
Proof. reflexivity. Qed.

(** [generate_presentation], case by case: a text refused in the first
    loop, a text refused in the second, a save that fails, a save that
    succeeds. *)
Lemma generate_presentation_cases (w : world) (qa : list (str * str))
    (out : str) (t : list event) :
  generate_presentation w qa out t =
  match first_refusal w (pass1_texts qa) with
  | Some msg =>
      (t ++ [Stdout (question_slides_line (length qa))],
       inl (Exception msg))
  | None =>
      match first_refusal w (pass2_texts qa) with
      | Some msg =>
          (t ++ [Stdout (question_slides_line (length qa));
                 Stdout (answer_slides_line (length qa))],
           inl (Exception msg))
      | None =>
          let deck := mkPresentation 100 75 (deck_slides qa) in
          match save_deck w out deck with
          | Some e =>
              (t ++ [Stdout (question_slides_line (length qa));
                     Stdout (answer_slides_line (length qa));
                     Save out deck],
               inl (exn_of_io e))
          | None =>
              (t ++ [Stdout (question_slides_line (length qa));
                     Stdout (answer_slides_line (length qa));
                     Save out deck]
                 ++ saved_trace (length qa) out,
               inr tt)
          end
      end
  end.
Proof.
  unfold generate_presentation, question_pass, answer_pass.
  rewrite bind_run, print_run, bind_run, question_loop.
  fold (pass1_texts qa).
  destruct (first_refusal w (pass1_texts qa)); [reflexivity|].
  rewrite bind_run, print_run, bind_run, answer_loop.
  fold (pass2_texts qa).
  destruct (first_refusal w (pass2_texts qa)).
  - rewrite <- app_assoc. reflexivity.
  - cbn [new_presentation slide_width slide_height slides app].
    rewrite <- map_app_deck. cbv zeta.
    rewrite bind_run, emit_run, bind_run.
    destruct (save_deck w out _) as [e|].
    + unfold raise. rewrite <- !app_assoc. reflexivity.
    + unfold ret at 1. repeat (rewrite bind_run || rewrite print_run).
      cbn [slides]. rewrite deck_slides_length.
      unfold saved_trace. rewrite <- !app_assoc. reflexivity.
Qed.

Lemma first_refusal_world_with (content : str) (texts : list str) :
  first_refusal (world_with content) texts = None.
Proof. induction texts as [|x r IH]; [reflexivity|exact IH]. Qed.

Lemma build_deck_eq (qa : list (str * str)) :
  build_deck qa = mkPresentation 100 75 (deck_slides qa).
Proof.
  unfold build_deck. rewrite generate_presentation_cases.
  rewrite !first_refusal_world_with. reflexivity.
Qed.

Lemma build_deck_slides (qa : list (str * str)) :
  slides (build_deck qa) = deck_slides qa.
Proof. rewrite build_deck_eq. reflexivity. Qed.

Lemma build_deck_length (qa : list (str * str)) :
  length (slides (build_deck qa)) = (2 * length qa)%nat.
Proof. rewrite build_deck_slides. apply deck_slides_length. Qed.

Lemma slide_title_no_NL (i : nat) : ~ In NL (slide_title i).
Proof.
  unfold slide_title, str_of_nat. intros H. apply in_app_or in H.
  destruct H as [H|H].
  - assert (forall u c, In c (digits u) -> 48 <= c <= 57) as Hd.
    { induction u; simpl; intros c Hc; try contradiction;
        (destruct Hc as [<-|Hc]; [lia|apply IHu, Hc]). }
    apply Hd in H. unfold NL in H. lia.
  - vm_compute in H. destruct H as [H|H]; [discriminate|contradiction].
Qed.

(** The box of a text holds the text; when the text has no line break,
    the box has one paragraph, the formatted one. *)
Lemma tb_text_text_box (left top width height : Z) (wrap : option bool)
    (text : str) (size : Z) (bold : bool) :
  tb_text (text_box left top width height wrap text size bold) = text.
Proof.
  unfold tb_text, text_box, paragraphs_of. cbn [tb_paragraphs].
  rewrite <- (join_split [NL] text) at 2 by discriminate.
  f_equal. destruct (split [NL] text) as [|l ls]; [reflexivity|].
  cbn [map format_first p_text]. f_equal. rewrite map_map.
  first [apply map_id | symmetry; apply map_id].
Qed.

Lemma text_box_one_paragraph (left top width height : Z)
    (wrap : option bool) (text : str) (size : Z) (bold : bool) :
  ~ In NL text ->
  tb_paragraphs (text_box left top width height wrap text size bold)
  = [mkParagraph text (Some JUSTIFY) (Some size) (Some bold) (Some white)].
Proof.
  intros H. unfold text_box, paragraphs_of. cbn [tb_paragraphs].
  rewrite (split_NL_one_line _ H). reflexivity.
Qed.

End DeckFacts.

(** ** Facts about the script *)

Section ScriptFacts.

Local Open Scope list_scope.

Lemma parse_content_nonempty (content : str) : parse_content content <> [].
Proof.
  intros E. pose proof (parse_content_length content) as H.
  rewrite E in H. pose proof (split_length [NL; NL] (strip content)) as H'.
  unfold blocks_of in H. simpl in H. lia.
Qed.

Lemma two_args (argv : list str) :
  length argv = 2%nat -> exists prog input, argv = [prog; input].
Proof.
  destruct argv as [|prog [|input [|x r]]]; try discriminate.
  intros _. eauto.
Qed.

Lemma run_wrong_arity (w : world) (argv : list str) :
  length argv <> 2%nat ->
  run w argv =
  ([Stdout (lit "Usage: python quiz_generator.py <questions_file.txt>");
    Stdout ([NL] ++ lit "Expected format in text file:");
    Stdout (lit "  Question 1 text here?");
    Stdout (lit "  Answer 1 text here");
    Stdout (lit "  ");
    Stdout (lit "  Question 2 text here?");
    Stdout (lit "  Answer 2 text here")], 1%Z).
Proof.
  intros H. run_script. apply Nat.eqb_neq in H. rewrite H. reflexivity.
Qed.

(** A run with two arguments, case by case. *)
Lemma run_two_args (w : world) (prog input : str) :
  run w [prog; input] =
  match read_text w input with
  | inl e => (reading_trace input ++ [Stdout (io_error_line input e)], 1%Z)
  | inr content =>
      let qa := parse_content content in
      let out := output_name input in
      let found := Stdout (found_line (length qa)) in
      match first_refusal w (pass1_texts qa) with
      | Some msg =>
          (reading_trace input
           ++ [found; Stdout (question_slides_line (length qa));
               Stdout (error_line msg)], 1%Z)
      | None =>
          match first_refusal w (pass2_texts qa) with
          | Some msg =>
              (reading_trace input
               ++ [found; Stdout (question_slides_line (length qa));
                   Stdout (answer_slides_line (length qa));
                   Stdout (error_line msg)], 1%Z)
          | None =>
              match save_deck w out (build_deck qa) with
              | Some e =>
                  (reading_trace input ++ found :: generating_trace qa out
                   ++ [Stdout (io_error_line input e)], 1%Z)
              | None =>
                  (reading_trace input ++ found :: generating_trace qa out
                   ++ saved_trace (length qa) out, 0%Z)
              end
          end
      end
  end.
Proof.
  run_script.
  change (negb (length [prog; input] =? 2)%nat) with false.
  step. destruct (read_text w input) as [e|content].
  - destruct e; reflexivity.
  - step. cbv zeta.
    destruct (parse_content content) as [|p ps] eqn:E.
    + exfalso. exact (parse_content_nonempty _ E).
    + step. rewrite generate_presentation_cases.
      destruct (first_refusal w (pass1_texts (p :: ps))); [reflexivity|].
      destruct (first_refusal w (pass2_texts (p :: ps))); [reflexivity|].
      cbv zeta. unfold generating_trace. rewrite build_deck_eq.
      destruct (save_deck w _ _) as [e|].
      * destruct e; reflexivity.
      * reflexivity.
Qed.

(** No line the script prints begins with the letter C. *)
Lemma run_lines (w : world) (argv : list str) :
  Forall not_guidance (fst (run w argv)).
Proof.
  destruct (Nat.eq_dec (length argv) 2) as [H|H].
  - destruct (two_args argv H) as [prog [input ->]].
    rewrite run_two_args.
    destruct (read_text w input) as [e|content].
    + destruct e; lines.
    + cbv zeta.
      destruct (first_refusal w (pass1_texts _)); [lines|].
      destruct (first_refusal w (pass2_texts _)); [lines|].
      destruct (save_deck w _ _) as [e|]; [destruct e|]; lines.
  - rewrite (run_wrong_arity w argv H). lines.
Qed.

(** With two arguments and a readable file the script reports the number
    of pairs found. *)
Lemma run_found (w : world) (prog input content : str) :
  read_text w input = inr content ->
  In (Stdout (found_line (length (parse_content content))))
     (fst (run w [prog; input])).
Proof.
  intros H. rewrite run_two_args, H. cbv zeta.
  destruct (first_refusal w (pass1_texts _));
    [|destruct (first_refusal w (pass2_texts _));
      [|destruct (save_deck w _ _)]];
    cbn [fst]; apply in_or_app; right; left; reflexivity.
Qed.

End ScriptFacts.

(** ** The claims *)

Section Claims.

Local Open Scope list_scope.

(** C1, amended.  A text made of N blocks separated by one empty line,
    every block of at least two lines and beginning with a line that is
    not blank, parses to exactly N pairs, in the order of the blocks; the
    question of a pair is the first line of its block and the answer the
    second line, both stripped.  A line is not empty and holds no line
    break ([proper_line]); the text is [text_of blocks]. *)
Theorem parse_questions_assembled_blocks :
  forall blocks : list (list str),
    blocks <> [] ->
    forallb proper_block blocks = true ->
    forallb (fun b => (2 <=? length b)%nat) blocks = true ->
    parse_content (text_of blocks) = map pair_of_lines blocks
    /\ length (parse_content (text_of blocks)) = length blocks.
Proof.
  intros blocks Hne Hp _.
  rewrite (parse_text_of blocks Hne Hp). split; [reflexivity|].
  apply length_map.
Qed.

Lemma parse_questions_assembled_blocks_witness :
  parse_content
    (text_of [[lit " Why?"; lit "Because. "; lit "(extra)"];
              [lit "Who?"; lit "Them"]])
  = [(lit "Why?", lit "Because."); (lit "Who?", lit "Them")].
Proof.
  exact (proj1 (parse_questions_assembled_blocks
    [[lit " Why?"; lit "Because. "; lit "(extra)"]; [lit "Who?"; lit "Them"]]
    ltac:(discriminate) eq_refl eq_refl)).
Defined.

(** C1 as it was stated fails where a block begins with a line of spaces:
    the block is stripped before it is split into lines, so that line is
    lost and the pair is made of the two lines after it.  Here the two
    blocks are made of lines and have two and three lines, and the second
    gives (Q, A), not the empty string and Q. *)
Lemma parse_questions_blank_first_line :
  forallb (forallb proper_line)
    [[lit "X"; lit "Y"]; [lit " "; lit "Q"; lit "A"]] = true
  /\ forallb (fun b => (2 <=? length b)%nat)
       [[lit "X"; lit "Y"]; [lit " "; lit "Q"; lit "A"]] = true
  /\ parse_content (text_of [[lit "X"; lit "Y"]; [lit " "; lit "Q"; lit "A"]])
     = [(lit "X", lit "Y"); (lit "Q", lit "A")]
  /\ map pair_of_lines [[lit "X"; lit "Y"]; [lit " "; lit "Q"; lit "A"]]
     = [(lit "X", lit "Y"); ([], lit "Q")]
  /\ parse_content (text_of [[lit "X"; lit "Y"]; [lit " "; lit "Q"; lit "A"]])
     <> map pair_of_lines [[lit "X"; lit "Y"]; [lit " "; lit "Q"; lit "A"]].
Proof.
  repeat split. vm_compute. discriminate.
Qed.

(** C6.  A block that is exactly one line gives exactly one pair: the
    line, stripped, as the question, and the empty string as the answer.
    First for any block without line break among the blocks of any
    content; then for a one-line block of a text assembled from lines. *)
Theorem parse_questions_single_line_block :
  (forall (content : str) (pre post : list str) (l : str),
      blocks_of content = pre ++ l :: post ->
      ~ In NL l ->
      parse_content content
      = flat_map (parse_block []) pre ++ (strip l, [])
          :: flat_map (parse_block []) post)
  /\
  (forall (pre post : list (list str)) (l : str),
      forallb proper_block (pre ++ [l] :: post) = true ->
      parse_content (text_of (pre ++ [l] :: post))
      = map pair_of_lines pre ++ (strip l, []) :: map pair_of_lines post).
Proof.
  split.
  - intros content pre post l E H.
    rewrite parse_content_flat_map, E, flat_map_app. f_equal.
    cbn [flat_map]. rewrite parse_block_one. unfold lines_of.
    rewrite split_NL_one_line by (apply not_In_strip; exact H).
    simpl. rewrite strip_strip. reflexivity.
  - intros pre post l H.
    rewrite parse_text_of; [|destruct pre; discriminate|exact H].
    rewrite map_app. reflexivity.
Qed.

Lemma parse_questions_single_line_block_witness :
  parse_content (lit "Q1?" ++ [NL] ++ lit "A1" ++ [NL; NL] ++ lit " Alone? ")
  = [(lit "Q1?", lit "A1"); (lit "Alone?", [])]
  /\ parse_content (text_of [[lit "Q1?"; lit "A1"]; [lit "Alone?"]; [lit "Q3"; lit "A3"]])
     = [(lit "Q1?", lit "A1"); (lit "Alone?", []); (lit "Q3", lit "A3")].
Proof.
  split.
  - refine (proj1 parse_questions_single_line_block
      (lit "Q1?" ++ [NL] ++ lit "A1" ++ [NL; NL] ++ lit " Alone? ")
      [lit "Q1?" ++ [NL] ++ lit "A1"] [] (lit " Alone?") _ _).
    + reflexivity.
    + vm_compute. intuition discriminate.
  - refine (proj2 parse_questions_single_line_block
      [[lit "Q1?"; lit "A1"]] [[lit "Q3"; lit "A3"]] (lit "Alone?") _).
    reflexivity.
Defined.







(** C8.  When the number of command-line arguments is not exactly one
    (the argument list, program name included, has not two entries), the
    script prints the usage text and exits with status 1; it opens no
    file and saves nothing. *)
Theorem main_usage_on_wrong_arity :
  forall (w : world) (argv : list str),
    length argv <> 2%nat ->
    run w argv =
    ([Stdout (lit "Usage: python quiz_generator.py <questions_file.txt>");
      Stdout ([NL] ++ lit "Expected format in text file:");
      Stdout (lit "  Question 1 text here?");
      Stdout (lit "  Answer 1 text here");
      Stdout (lit "  ");
      Stdout (lit "  Question 2 text here?");
      Stdout (lit "  Answer 2 text here")], 1%Z)
    /\ snd (run w argv) <> 0%Z
    /\ opened (fst (run w argv)) = []
    /\ saved (fst (run w argv)) = [].
Proof.
  intros w argv H.
  assert (run w argv =
    ([Stdout (lit "Usage: python quiz_generator.py <questions_file.txt>");
      Stdout ([NL] ++ lit "Expected format in text file:");
      Stdout (lit "  Question 1 text here?");
      Stdout (lit "  Answer 1 text here");
      Stdout (lit "  ");
      Stdout (lit "  Question 2 text here?");
      Stdout (lit "  Answer 2 text here")], 1%Z)) as E.
  { unfold run, main, usage, bind, print, emit, sys_exit, raise, ret.
    apply Nat.eqb_neq in H. rewrite H. reflexivity. }
  rewrite E. repeat split. discriminate.
Qed.

Lemma main_usage_on_wrong_arity_witness :
  snd (run (world_with (lit "Q?")) [lit "quiz_generator.py"]) = 1%Z
  /\ opened (fst (run (world_with (lit "Q?"))
                   [lit "quiz_generator.py"; lit "a.txt"; lit "b.txt"])) = [].
Proof.
  split.
  - exact (f_equal snd (proj1 (main_usage_on_wrong_arity
      (world_with (lit "Q?")) [lit "quiz_generator.py"]
      ltac:(simpl; lia)))).
  - exact (proj1 (proj2 (proj2 (main_usage_on_wrong_arity
      (world_with (lit "Q?"))
      [lit "quiz_generator.py"; lit "a.txt"; lit "b.txt"]
      ltac:(simpl; lia))))).
Defined.

(** C9.  [parse_questions] never returns an empty list: a split always
    has a piece, so a content always has a block, and every block, an empty
    one too, appends exactly one pair.  So the branch of [main] that
    reports that no pair was found is never run: its line about the file
    format is never printed, and whenever the file is read the script goes
    on to report how many pairs it found. *)
Theorem no_pairs_branch_unreachable :
  (forall content : str,
      (1 <= length (blocks_of content))%nat
      /\ length (parse_content content) = length (blocks_of content)
      /\ parse_content content <> [])
  /\ (forall (qa_pairs : list (str * str)) (block : str),
         length (parse_block qa_pairs block) = S (length qa_pairs))
  /\ (forall (w : world) (argv : list str),
         ~ In (Stdout (check_format_line)) (fst (run w argv)))
  /\ (forall (w : world) (prog input content : str),
         read_text w input = inr content ->
         In (Stdout (found_line (length (parse_content content))))
            (fst (run w [prog; input]))).
Proof.
  split; [|split; [|split]].
  - intros content. split; [apply split_length|].
    split; [apply parse_content_length|apply parse_content_nonempty].
  - intros acc b. rewrite parse_block_one, length_app. simpl. lia.
  - intros w argv Hin.
    pose proof (run_lines w argv) as H. rewrite Forall_forall in H.
    specialize (H _ Hin). vm_compute in H. congruence.
  - intros w prog input content. apply run_found.
Qed.

Lemma no_pairs_branch_unreachable_witness :
  parse_content [] <> []
  /\ In (Stdout (found_line 1))
        (fst (run (world_with []) [lit "quiz_generator.py"; lit "empty.txt"])).
Proof.
  split.
  - exact (proj2 (proj2 (proj1 no_pairs_branch_unreachable []))).
  - exact (proj2 (proj2 (proj2 no_pairs_branch_unreachable))
             (world_with []) (lit "quiz_generator.py") (lit "empty.txt") []
             eq_refl).
Defined.

Lemma strip_trimmed (s : str) : trimmed (strip s) = true.
Proof.
  unfold trimmed. destruct (strip s) as [|c r] eqn:E; [reflexivity|].
  assert (isspace (last (c :: r) c) = false) as Hlast.
  { assert (c :: r <> []) as Hne by discriminate.
    destruct (exists_last Hne) as [r' [d Hd]].
    rewrite Hd, last_last. rewrite Hd in E.
    exact (strip_last _ _ _ E). }
  rewrite (strip_head _ _ _ E), Hlast. reflexivity.
Qed.

Lemma nth_no_NL (lines : list str) (k : nat) :
  Forall (fun l => ~ In NL l) lines -> ~ In NL (nth k lines []).
Proof.
  intros H. destruct (nth_in_or_default k lines []) as [Hin | ->].
  - rewrite Forall_forall in H. apply H, Hin.
  - intros [].
Qed.

(** C10.  Whatever the content, no question and no answer among the pairs
    returned holds a line break, and none begins or ends with a space. *)
Theorem parse_questions_pairs_clean :
  forall (content question answer : str),
    In (question, answer) (parse_content content) ->
    (~ In NL question /\ trimmed question = true)
    /\ (~ In NL answer /\ trimmed answer = true).
Proof.
  intros content q a H.
  rewrite parse_content_flat_map in H. apply in_flat_map in H.
  destruct H as [b [_ H]]. rewrite parse_block_one in H.
  remember (2 <=? length (lines_of b))%nat as two eqn:Etwo. clear Etwo.
  destruct H as [H|H]; [|destruct H]. injection H as <- <-.
  pose proof (split_NL_no_NL (strip b)) as Hl. fold (lines_of b) in Hl.
  split; split.
  - apply not_In_strip, nth_no_NL, Hl.
  - apply strip_trimmed.
  - destruct two; [|intros Hin; exact Hin].
    apply not_In_strip, nth_no_NL, Hl.
  - destruct two; [|reflexivity].
    apply strip_trimmed.
Qed.

Lemma parse_questions_pairs_clean_witness :
  (~ In NL (lit "Q?") /\ trimmed (lit "Q?") = true)
  /\ (~ In NL (lit "A b") /\ trimmed (lit "A b") = true).
Proof.
  refine (parse_questions_pairs_clean
    ([NL] ++ lit "  Q? " ++ [NL] ++ lit " A b  " ++ [NL] ++ lit "x" ++ [NL])
    (lit "Q?") (lit "A b") _).
  vm_compute. left. reflexivity.
Defined.

(** C3, on the code as it is.  Every occurrence of ".txt" in the name is
    replaced, not a trailing one only, and ".pptx" is appended only when
    the name holds no ".txt" at all: "my.txt.bak" gives "my.pptx.bak".
    The two names of the specification's scenario come out as it says. *)
Theorem output_name_replaces_every_occurrence :
  output_name (lit "my.txt.bak") = lit "my.pptx.bak"
  /\ output_name (lit "a.txt.txt") = lit "a.pptx.pptx"
  /\ output_name (lit "quiz.txt") = lit "quiz.pptx"
  /\ output_name (lit "quiz") = lit "quiz.pptx".
Proof. repeat split; vm_compute; reflexivity. Qed.

(** C4, on the code as it is.  The empty content parses to one pair, both
    strings empty, not to zero pairs; the script then reports one pair
    found, saves a deck of two slides and ends with status 0, and the
    report of an empty parse is not printed. *)
Theorem empty_file_gives_one_pair :
  parse_content [] = [([], [])]
  /\ let r := run (world_with []) [lit "quiz_generator.py"; lit "empty.txt"] in
     snd r = 0%Z
     /\ saved (fst r) = [(lit "empty.pptx", build_deck [([], [])])]
     /\ length (slides (build_deck [([], [])])) = 2%nat
     /\ In (found_line 1) (printed (fst r))
     /\ ~ In no_pairs_line (printed (fst r)).
Proof.
  split; [reflexivity|].
  cbv zeta. repeat split; try (vm_compute; reflexivity).
  - vm_compute. intuition.
  - vm_compute. intuition discriminate.
Qed.

(** C5, on the code as it is.  Four line breaks in a row leave an empty
    block between two separators, and the empty block contributes a pair
    of two empty strings. *)
Theorem empty_block_gives_a_pair :
  let content :=
    lit "A" ++ [NL] ++ lit "B" ++ [NL; NL; NL; NL] ++ lit "C" ++ [NL] ++ lit "D" in
  blocks_of content = [lit "A" ++ [NL] ++ lit "B"; []; lit "C" ++ [NL] ++ lit "D"]
  /\ parse_block [] [] = [([], [])]
  /\ parse_content content = [(lit "A", lit "B"); ([], []); (lit "C", lit "D")].
Proof. repeat split. Qed.

End Claims.

(** ** Beyond the claims: the script as a whole *)

Section RunFacts.

Local Open Scope list_scope.

(** X8.  [generate_presentation], for any list of pairs and after any
    earlier output.  If the library refuses a text of the first loop, the
    first progress line is printed and the exception raised; if it
    refuses a text of the second loop only, both progress lines are
    printed and the exception raised; in both cases [save] is not
    called.  Otherwise [save] is called once, after both lines, with the
    deck of the two loops; what [save] raises is raised on and nothing
    more is printed; after a save that succeeded the four closing lines
    report 2 x N slides, the answers from slide N + 1 on. *)
Theorem generate_presentation_trace :
  forall (w : world) (qa_pairs : list (str * str)) (out : str)
         (t : list event),
    generate_presentation w qa_pairs out t =
    match first_refusal w (pass1_texts qa_pairs) with
    | Some msg =>
        (t ++ [Stdout (question_slides_line (length qa_pairs))],
         inl (Exception msg))
    | None =>
        match first_refusal w (pass2_texts qa_pairs) with
        | Some msg =>
            (t ++ [Stdout (question_slides_line (length qa_pairs));
                   Stdout (answer_slides_line (length qa_pairs))],
             inl (Exception msg))
        | None =>
            match save_deck w out (build_deck qa_pairs) with
            | Some e =>
                (t ++ generating_trace qa_pairs out, inl (exn_of_io e))
            | None =>
                (t ++ generating_trace qa_pairs out
                   ++ saved_trace (length qa_pairs) out, inr tt)
            end
        end
    end.
Proof.
  intros w qa out t. rewrite generate_presentation_cases.
  unfold generating_trace. rewrite build_deck_eq. reflexivity.
Qed.

(** X1.  A run ends with status 0 only if there are two arguments, the
    input file is read, the library refuses none of the texts of the
    deck, and the deck of the parsed pairs is saved under the derived
    name. *)
Theorem run_status_zero_only_if :
  forall (w : world) (argv : list str),
    snd (run w argv) = 0%Z ->
    exists prog input content,
      argv = [prog; input]
      /\ read_text w input = inr content
      /\ accepted w (pass2_texts (parse_content content)) = true
      /\ save_deck w (output_name input)
           (build_deck (parse_content content)) = None
      /\ saved (fst (run w argv))
         = [(output_name input, build_deck (parse_content content))].
Proof.
  intros w argv H0.
  destruct (Nat.eq_dec (length argv) 2) as [H|H].
  - destruct (two_args argv H) as [prog [input ->]].
    rewrite run_two_args in *.
    destruct (read_text w input) as [e|content] eqn:Er; [discriminate|].
    cbv zeta in *.
    destruct (first_refusal w (pass1_texts _)) eqn:E1; [discriminate|].
    destruct (first_refusal w (pass2_texts _)) eqn:E2; [discriminate|].
    destruct (save_deck w _ _) eqn:Es; [discriminate|].
    exists prog, input, content.
    repeat split; try assumption.
    apply accepted_first_refusal. exact E2.
  - rewrite (run_wrong_arity w argv H) in H0. discriminate.
Qed.

Lemma run_status_zero_only_if_witness :
  exists prog input content,
    [lit "quiz_generator.py"; lit "q.txt"] = [prog; input]
    /\ read_text (world_with (lit "Q?")) input = inr content
    /\ accepted (world_with (lit "Q?")) (pass2_texts (parse_content content))
       = true
    /\ save_deck (world_with (lit "Q?")) (output_name input)
         (build_deck (parse_content content)) = None
    /\ saved (fst (run (world_with (lit "Q?"))
                     [lit "quiz_generator.py"; lit "q.txt"]))
       = [(output_name input, build_deck (parse_content content))].
Proof.
  exact (run_status_zero_only_if (world_with (lit "Q?"))
           [lit "quiz_generator.py"; lit "q.txt"] eq_refl).
Defined.

(** X2.  When the input file does not exist the script says so, naming the
    file, and exits with status 1 without saving anything. *)
Theorem run_input_not_found :
  forall (w : world) (prog input : str),
    read_text w input = inl NotFound ->
    run w [prog; input] =
    ([Stdout (lit "Reading questions from: " ++ input);
      OpenRead input;
      Stdout (lit "ERROR: File '" ++ input ++ lit "' not found.")], 1%Z).
Proof.
  intros w prog input H. rewrite run_two_args, H. reflexivity.
Qed.

Lemma run_input_not_found_witness :
  run (mkWorld (fun _ => inl NotFound) (fun _ _ => None) (fun _ => None))
      [lit "quiz_generator.py"; lit "q.txt"]
  = ([Stdout (lit "Reading questions from: q.txt");
      OpenRead (lit "q.txt");
      Stdout (lit "ERROR: File 'q.txt' not found.")], 1%Z).
Proof.
  exact (run_input_not_found
           (mkWorld (fun _ => inl NotFound) (fun _ _ => None) (fun _ => None))
           (lit "quiz_generator.py") (lit "q.txt") eq_refl).
Defined.

(** X3.  When reading the input file fails in any other way the script prints
    the message of the exception after "ERROR: " and exits with status 1
    without saving anything. *)
Theorem run_input_unreadable :
  forall (w : world) (prog input msg : str),
    read_text w input = inl (Failure msg) ->
    run w [prog; input] =
    ([Stdout (lit "Reading questions from: " ++ input);
      OpenRead input;
      Stdout (lit "ERROR: " ++ msg)], 1%Z).
Proof.
  intros w prog input msg H. rewrite run_two_args, H. reflexivity.
Qed.

Lemma run_input_unreadable_witness :
  run (mkWorld (fun _ => inl (Failure (lit "bad byte"))) (fun _ _ => None)
           (fun _ => None))
      [lit "quiz_generator.py"; lit "q.txt"]
  = ([Stdout (lit "Reading questions from: q.txt");
      OpenRead (lit "q.txt");
      Stdout (lit "ERROR: bad byte")], 1%Z).
Proof.
  exact (run_input_unreadable
           (mkWorld (fun _ => inl (Failure (lit "bad byte"))) (fun _ _ => None)
           (fun _ => None))
           (lit "quiz_generator.py") (lit "q.txt") (lit "bad byte") eq_refl).
Defined.

Lemma output_name_differs (input : str) : output_name input <> input.
Proof.
  unfold output_name.
  destruct (str_eqb (replace (lit ".txt") (lit ".pptx") input) input) eqn:E.
  - intros H. apply (f_equal (@length _)) in H.
    rewrite length_app in H. simpl in H. lia.
  - intros H. apply str_eqb_eq in H. congruence.
Qed.

Lemma run_reaches_save (w : world) (prog input content : str) :
  read_text w input = inr content ->
  accepted w (pass2_texts (parse_content content)) = true ->
  run w [prog; input] =
  match save_deck w (output_name input) (build_deck (parse_content content))
  with
  | Some e =>
      (reading_trace input
       ++ Stdout (found_line (length (parse_content content)))
       :: generating_trace (parse_content content) (output_name input)
       ++ [Stdout (io_error_line input e)], 1%Z)
  | None =>
      (reading_trace input
       ++ Stdout (found_line (length (parse_content content)))
       :: generating_trace (parse_content content) (output_name input)
       ++ saved_trace (length (parse_content content)) (output_name input),
       0%Z)
  end.
Proof.
  intros Hr Ha. apply accepted_first_refusal in Ha.
  rewrite run_two_args, Hr. cbv zeta.
  rewrite (first_refusal_passes _ _ Ha), Ha. reflexivity.
Qed.

(** X4.  When the file is read, the library accepts the texts and [save]
    fails with a message, the run has reported the pairs found and
    printed both progress lines; it then prints the message after
    "ERROR: ", prints none of the closing lines and exits with status 1. *)
Theorem run_save_failure :
  forall (w : world) (prog input content msg : str),
    read_text w input = inr content ->
    accepted w (pass2_texts (parse_content content)) = true ->
    save_deck w (output_name input) (build_deck (parse_content content))
    = Some (Failure msg) ->
    run w [prog; input] =
    (reading_trace input
     ++ Stdout (found_line (length (parse_content content)))
     :: generating_trace (parse_content content) (output_name input)
     ++ [Stdout (lit "ERROR: " ++ msg)], 1%Z).
Proof.
  intros w prog input content msg Hr Ha Hs.
  rewrite (run_reaches_save _ _ _ _ Hr Ha), Hs. reflexivity.
Qed.

Lemma run_save_failure_witness :
  snd (run (mkWorld (fun _ => inr (lit "Q?"))
                    (fun _ _ => Some (Failure (lit "disk full")))
                    (fun _ => None))
           [lit "quiz_generator.py"; lit "q.txt"]) = 1%Z
  /\ last (printed (fst (run (mkWorld (fun _ => inr (lit "Q?"))
                                (fun _ _ => Some (Failure (lit "disk full")))
                                (fun _ => None))
                         [lit "quiz_generator.py"; lit "q.txt"]))) []
     = lit "ERROR: disk full".
Proof.
  rewrite (run_save_failure
             (mkWorld (fun _ => inr (lit "Q?"))
                      (fun _ _ => Some (Failure (lit "disk full")))
                      (fun _ => None))
             (lit "quiz_generator.py") (lit "q.txt") (lit "Q?")
             (lit "disk full") eq_refl eq_refl eq_refl).
  split; reflexivity.
Defined.

(** X5.  When the file is read, the library accepts the texts and [save]
    raises [FileNotFoundError] (the folder of the output name is
    missing), the handler reports the input file as not found, though
    that file was opened and read. *)
Theorem run_output_not_found_blames_input :
  forall (w : world) (prog input content : str),
    read_text w input = inr content ->
    accepted w (pass2_texts (parse_content content)) = true ->
    save_deck w (output_name input) (build_deck (parse_content content))
    = Some NotFound ->
    run w [prog; input] =
    (reading_trace input
     ++ Stdout (found_line (length (parse_content content)))
     :: generating_trace (parse_content content) (output_name input)
     ++ [Stdout (lit "ERROR: File '" ++ input ++ lit "' not found.")], 1%Z).
Proof.
  intros w prog input content Hr Ha Hs.
  rewrite (run_reaches_save _ _ _ _ Hr Ha), Hs. reflexivity.
Qed.

Lemma run_output_not_found_blames_input_witness :
  last (printed (fst (run (mkWorld (fun _ => inr (lit "Q?"))
                                (fun _ _ => Some NotFound) (fun _ => None))
                         [lit "quiz_generator.py"; lit "a.txt/q.txt"]))) []
  = lit "ERROR: File 'a.txt/q.txt' not found.".
Proof.
  rewrite (run_output_not_found_blames_input
             (mkWorld (fun _ => inr (lit "Q?")) (fun _ _ => Some NotFound)
                      (fun _ => None))
             (lit "quiz_generator.py") (lit "a.txt/q.txt") (lit "Q?")
             eq_refl eq_refl eq_refl).
  reflexivity.
Defined.

(** X6.  A run that reads the file and ends with status 0 is exactly:
    the line about reading, the opening of the input, the N pairs found,
    the two progress lines, one save of the deck of these pairs under the
    derived name, and the four closing lines reporting 2 x N slides. *)
Theorem run_status_zero_trace :
  forall (w : world) (prog input content : str),
    read_text w input = inr content ->
    snd (run w [prog; input]) = 0%Z ->
    fst (run w [prog; input]) =
    reading_trace input
    ++ Stdout (found_line (length (parse_content content)))
    :: generating_trace (parse_content content) (output_name input)
    ++ saved_trace (length (parse_content content)) (output_name input).
Proof.
  intros w prog input content Hr H0.
  rewrite run_two_args, Hr in *. cbv zeta in *.
  destruct (first_refusal w (pass1_texts _)); [discriminate|].
  destruct (first_refusal w (pass2_texts _)); [discriminate|].
  destruct (save_deck w _ _); [discriminate|]. reflexivity.
Qed.

Lemma run_status_zero_trace_witness :
  printed (fst (run (world_with (lit "Q?" ++ [NL] ++ lit "A"))
                    [lit "quiz_generator.py"; lit "q.txt"]))
  = [lit "Reading questions from: q.txt";
     lit "Found 1 question/answer pairs" ++ [NL];
     lit "Generating 1 question slides...";
     lit "Generating 1 answer slides...";
     [NL; check_mark] ++ lit " Presentation saved as: q.pptx";
     [check_mark] ++ lit " Total slides: 2";
     lit "  - Questions: slides 1-1";
     lit "  - Answers: slides 2-2"].
Proof.
  rewrite (run_status_zero_trace (world_with (lit "Q?" ++ [NL] ++ lit "A"))
             (lit "quiz_generator.py") (lit "q.txt")
             (lit "Q?" ++ [NL] ++ lit "A") eq_refl eq_refl).
  reflexivity.
Defined.

(** X7.  Whatever the run, a deck is saved at most once, only after the
    input file was opened and read and every text accepted, under the
    name derived from the input name, and this name differs from the
    input name. *)
Theorem run_saves_once_beside_input :
  forall (w : world) (argv : list str) (p : str) (d : Presentation),
    In (p, d) (saved (fst (run w argv))) ->
    exists prog input content,
      argv = [prog; input]
      /\ read_text w input = inr content
      /\ p = output_name input
      /\ p <> input
      /\ d = build_deck (parse_content content)
      /\ saved (fst (run w argv)) = [(p, d)]
      /\ opened (fst (run w argv)) = [input].
Proof.
  intros w argv p d Hin.
  destruct (Nat.eq_dec (length argv) 2) as [H|H].
  - destruct (two_args argv H) as [prog [input ->]].
    rewrite run_two_args in *.
    destruct (read_text w input) as [e|content] eqn:Er.
    + simpl in Hin. contradiction.
    + exists prog, input, content. cbv zeta in *.
      destruct (first_refusal w (pass1_texts _));
        [simpl in Hin; contradiction|].
      destruct (first_refusal w (pass2_texts _));
        [simpl in Hin; contradiction|].
      destruct (save_deck w (output_name input) _) as [e|];
        cbn [fst] in *;
        unfold saved, opened in *;
        rewrite !flat_map_app in *;
        cbn [flat_map reading_trace generating_trace saved_trace app] in *;
        (destruct Hin as [Hin|Hin]; [|contradiction]);
        injection Hin as <- <-;
        repeat split; auto using output_name_differs.
  - rewrite (run_wrong_arity w argv H) in Hin. simpl in Hin. contradiction.
Qed.

Lemma run_saves_once_beside_input_witness :
  saved (fst (run (world_with (lit "Q?")) [lit "quiz_generator.py"; lit "q.txt"]))
  = [(lit "q.pptx", build_deck [(lit "Q?", [])])].
Proof.
  destruct (run_saves_once_beside_input (world_with (lit "Q?"))
              [lit "quiz_generator.py"; lit "q.txt"]
              (lit "q.pptx") (build_deck [(lit "Q?", [])])
              ltac:(vm_compute; left; reflexivity))
    as [prog [input [content [_ [_ [_ [_ [_ [E _]]]]]]]]].
  exact E.
Defined.

(** X19.  When the file is read and the library refuses a title or a
    question, the run reports the pairs found, prints the first progress
    line, then the message of the first refusal after "ERROR: ", and ends
    with status 1; the second loop is not begun and nothing is saved. *)
Theorem run_question_refused :
  forall (w : world) (prog input content msg : str),
    read_text w input = inr content ->
    first_refusal w (pass1_texts (parse_content content)) = Some msg ->
    run w [prog; input] =
    (reading_trace input
     ++ [Stdout (found_line (length (parse_content content)));
         Stdout (question_slides_line (length (parse_content content)));
         Stdout (lit "ERROR: " ++ msg)], 1%Z).
Proof.
  intros w prog input content msg Hr H1.
  rewrite run_two_args, Hr. cbv zeta. rewrite H1. reflexivity.
Qed.

Lemma run_question_refused_witness :
  run (xml_world (lit "Q" ++ [65535] ++ [NL] ++ lit "A"))
      [lit "quiz_generator.py"; lit "q.txt"]
  = ([Stdout (lit "Reading questions from: q.txt");
      OpenRead (lit "q.txt");
      Stdout (lit "Found 1 question/answer pairs" ++ [NL]);
      Stdout (lit "Generating 1 question slides...");
      Stdout (lit "ERROR: " ++ xml_message)], 1%Z).
Proof.
  exact (run_question_refused
           (xml_world (lit "Q" ++ [65535] ++ [NL] ++ lit "A"))
           (lit "quiz_generator.py") (lit "q.txt")
           (lit "Q" ++ [65535] ++ [NL] ++ lit "A") xml_message
           eq_refl eq_refl).
Defined.

(** X20.  When the file is read and the library accepts every title and
    question but refuses an answer, the first loop is completed: the run
    prints both progress lines, then the message of the first refusal
    after "ERROR: ", and ends with status 1; nothing is saved. *)
Theorem run_answer_refused :
  forall (w : world) (prog input content msg : str),
    read_text w input = inr content ->
    first_refusal w (pass1_texts (parse_content content)) = None ->
    first_refusal w (pass2_texts (parse_content content)) = Some msg ->
    run w [prog; input] =
    (reading_trace input
     ++ [Stdout (found_line (length (parse_content content)));
         Stdout (question_slides_line (length (parse_content content)));
         Stdout (answer_slides_line (length (parse_content content)));
         Stdout (lit "ERROR: " ++ msg)], 1%Z).
Proof.
  intros w prog input content msg Hr H1 H2.
  rewrite run_two_args, Hr. cbv zeta. rewrite H1, H2. reflexivity.
Qed.

Lemma run_answer_refused_witness :
  run (xml_world (lit "Q" ++ [NL] ++ lit "A" ++ [65534]))
      [lit "quiz_generator.py"; lit "q.txt"]
  = ([Stdout (lit "Reading questions from: q.txt");
      OpenRead (lit "q.txt");
      Stdout (lit "Found 1 question/answer pairs" ++ [NL]);
      Stdout (lit "Generating 1 question slides...");
      Stdout (lit "Generating 1 answer slides...");
      Stdout (lit "ERROR: " ++ xml_message)], 1%Z).
Proof.
  exact (run_answer_refused
           (xml_world (lit "Q" ++ [NL] ++ lit "A" ++ [65534]))
           (lit "quiz_generator.py") (lit "q.txt")
           (lit "Q" ++ [NL] ++ lit "A" ++ [65534]) xml_message
           eq_refl eq_refl eq_refl).
Defined.

End RunFacts.

(** ** Beyond the claims: the parser *)

Section ParserMore.

Local Open Scope list_scope.

Lemma lstrip_blank_app (ws x : str) :
  blank ws = true -> lstrip (ws ++ x) = lstrip x.
Proof.
  induction ws as [|c r IH]; simpl; [reflexivity|].
  destruct (isspace c); [exact IH|discriminate].
Qed.

Lemma rstrip_app_blank (x ws : str) :
  blank ws = true -> rstrip (x ++ ws) = rstrip x.
Proof.
  intros H. apply rstrip_nil_iff in H. rewrite rstrip_app, H. reflexivity.
Qed.

Lemma strip_outer_space (ws content ws' : str) :
  blank ws = true -> blank ws' = true ->
  strip (ws ++ content ++ ws') = strip content.
Proof.
  intros H H'. unfold strip.
  rewrite lstrip_blank_app by assumption.
  rewrite <- !lstrip_rstrip, rstrip_app_blank by assumption.
  reflexivity.
Qed.

(** X9.  Spaces, tabs and empty lines before the first question and after the
    last answer change nothing in the pairs returned. *)
Theorem parse_content_ignores_outer_space :
  forall ws content ws' : str,
    blank ws = true -> blank ws' = true ->
    parse_content (ws ++ content ++ ws') = parse_content content.
Proof.
  intros ws content ws' H H'. unfold parse_content, blocks_of.
  rewrite strip_outer_space by assumption. reflexivity.
Qed.

Lemma parse_content_ignores_outer_space_witness :
  parse_content ([NL; NL] ++ lit "  " ++ (lit "Q?" ++ [NL] ++ lit "A")
                 ++ lit " " ++ [NL; NL; NL])
  = parse_content (lit "Q?" ++ [NL] ++ lit "A").
Proof.
  exact (parse_content_ignores_outer_space
           ([NL; NL] ++ lit "  ") (lit "Q?" ++ [NL] ++ lit "A")
           (lit " " ++ [NL; NL; NL]) eq_refl eq_refl).
Defined.

(** X10.  A content of nothing but spaces and line breaks gives exactly one
    pair, of two empty strings. *)
Theorem parse_content_blank :
  forall content : str,
    blank content = true -> parse_content content = [([], [])].
Proof.
  intros content H. unfold parse_content, blocks_of.
  rewrite (strip_blank _ H). reflexivity.
Qed.

Lemma parse_content_blank_witness :
  parse_content (lit "  " ++ [NL; NL; 9; NL]) = [([], [])].
Proof.
  exact (parse_content_blank (lit "  " ++ [NL; NL; 9; NL]) eq_refl).
Defined.

Lemma rstrip_fixed (s : str) (d : char) :
  s <> [] -> isspace (last s d) = false -> rstrip s = s.
Proof.
  induction s as [|c [|c' r] IH]; intros Hne H; [congruence| |].
  - simpl in *. rewrite H. reflexivity.
  - change (last (c :: c' :: r) d) with (last (c' :: r) d) in H.
    cbn [rstrip]. cbn [rstrip] in IH. rewrite IH by (discriminate || exact H).
    reflexivity.
Qed.

Lemma last_default (s : str) (d d' : char) :
  s <> [] -> last s d = last s d'.
Proof.
  induction s as [|c [|c' r] IH]; intros H; [congruence|reflexivity|].
  change (last (c' :: r) d = last (c' :: r) d'). apply IH. discriminate.
Qed.

Lemma trimmed_strip (s : str) : trimmed s = true -> strip s = s.
Proof.
  destruct s as [|c r]; [reflexivity|]. unfold trimmed. intros H.
  apply andb_true_iff in H. destruct H as [H1 H2].
  apply negb_true_iff in H1, H2. unfold strip. cbn [lstrip]. rewrite H1.
  apply (rstrip_fixed _ c); [discriminate|exact H2].
Qed.

Lemma pair_of_lines_of_pair (p : str * str) :
  proper_question (fst p) && proper_answer (snd p) = true ->
  proper_block (lines_of_pair p) = true
  /\ pair_of_lines (lines_of_pair p) = p.
Proof.
  destruct p as [q a]. cbn [fst snd]. unfold proper_question, proper_answer.
  intros H. apply andb_true_iff in H. destruct H as [Hq Ha].
  apply andb_true_iff in Hq. destruct Hq as [Hq Hqt].
  apply andb_true_iff in Hq. destruct Hq as [Hql Hqb].
  unfold lines_of_pair, pair_of_lines, proper_block. cbn [snd fst].
  destruct a as [|c a'].
  - cbn [forallb hd nth]. rewrite Hql, Hqb, (trimmed_strip _ Hqt).
    split; reflexivity.
  - apply andb_true_iff in Ha. destruct Ha as [Hal Hat].
    cbn [forallb hd nth].
    rewrite Hql, Hal, Hqb, (trimmed_strip _ Hqt), (trimmed_strip _ Hat).
    split; reflexivity.
Qed.

(** X11.  Writing pairs out as a questions file (question line, answer line
    when there is an answer, one empty line between pairs) and parsing
    that file gives the pairs back, when questions and answers are single
    lines without space at either end and no question is empty. *)
Theorem parse_written_pairs :
  forall pairs : list (str * str),
    pairs <> [] ->
    forallb (fun p => proper_question (fst p) && proper_answer (snd p)) pairs
    = true ->
    parse_content (text_of (map lines_of_pair pairs)) = pairs.
Proof.
  intros pairs Hne H. rewrite forallb_forall in H.
  rewrite parse_text_of.
  - rewrite map_map. rewrite <- (map_id pairs) at 2.
    apply map_ext_in. intros p Hp.
    apply pair_of_lines_of_pair, H, Hp.
  - destruct pairs; [congruence|discriminate].
  - apply forallb_forall. intros b Hb. apply in_map_iff in Hb.
    destruct Hb as [p [<- Hp]]. apply pair_of_lines_of_pair, H, Hp.
Qed.

Lemma parse_written_pairs_witness :
  parse_content
    (lit "Q1?" ++ [NL] ++ lit "A 1" ++ [NL; NL] ++ lit "Alone?" ++ [NL; NL]
     ++ lit "Q3" ++ [NL] ++ lit "A3")
  = [(lit "Q1?", lit "A 1"); (lit "Alone?", []); (lit "Q3", lit "A3")].
Proof.
  exact (parse_written_pairs
           [(lit "Q1?", lit "A 1"); (lit "Alone?", []); (lit "Q3", lit "A3")]
           ltac:(discriminate) eq_refl).
Defined.

Lemma join_app (sep : str) (l1 l2 : list str) :
  l1 <> [] -> l2 <> [] ->
  join sep (l1 ++ l2) = join sep l1 ++ sep ++ join sep l2.
Proof.
  intros H1 H2. induction l1 as [|p [|q ps] IH]; [congruence| |].
  - destruct l2; [congruence|reflexivity].
  - change ((p :: q :: ps) ++ l2) with (p :: q :: (ps ++ l2)).
    rewrite !join_cons2.
    change (q :: ps ++ l2) with ((q :: ps) ++ l2).
    rewrite IH by discriminate. rewrite <- !app_assoc. reflexivity.
Qed.

(** X12.  Two files of proper blocks put one after the other with one empty
    line between them parse to the pairs of the first followed by the
    pairs of the second. *)
Theorem parse_content_appended :
  forall blocks1 blocks2 : list (list str),
    blocks1 <> [] -> blocks2 <> [] ->
    forallb proper_block blocks1 = true ->
    forallb proper_block blocks2 = true ->
    parse_content (text_of blocks1 ++ [NL; NL] ++ text_of blocks2)
    = parse_content (text_of blocks1) ++ parse_content (text_of blocks2).
Proof.
  intros b1 b2 H1 H2 P1 P2.
  assert (text_of b1 ++ [NL; NL] ++ text_of b2 = text_of (b1 ++ b2)) as ->.
  { unfold text_of. rewrite map_app, join_app; [reflexivity| |];
      destruct b1, b2; try congruence; discriminate. }
  rewrite !parse_text_of; try assumption.
  - apply map_app.
  - destruct b1; [congruence|discriminate].
  - rewrite forallb_app, P1, P2. reflexivity.
Qed.

Lemma parse_content_appended_witness :
  parse_content ((lit "Q1" ++ [NL] ++ lit "A1") ++ [NL; NL] ++ lit "Q2")
  = parse_content (lit "Q1" ++ [NL] ++ lit "A1") ++ parse_content (lit "Q2").
Proof.
  exact (parse_content_appended [[lit "Q1"; lit "A1"]] [[lit "Q2"]]
           ltac:(discriminate) ltac:(discriminate) eq_refl eq_refl).
Defined.

End ParserMore.

(** ** Beyond the claims: the name of the output file *)

Section OutputName.

Local Open Scope list_scope.

Lemma replace_from_absent (old new s : str) :
  has_sub old s = false -> replace_from old new 0 s = s.
Proof.
  induction s as [|c r IH]; intros H; [reflexivity|].
  cbn [has_sub] in H. apply orb_false_iff in H. destruct H as [H1 H2].
  cbn [replace_from]. rewrite H1, (IH H2). reflexivity.
Qed.

Lemma str_eqb_refl (s : str) : str_eqb s s = true.
Proof. apply str_eqb_eq. reflexivity. Qed.

(** X13.  A name in which ".txt" occurs nowhere gets ".pptx" appended and is
    otherwise unchanged. *)
Theorem output_name_without_txt :
  forall input : str,
    has_sub (lit ".txt") input = false ->
    output_name input = input ++ lit ".pptx".
Proof.
  intros input H. unfold output_name, replace.
  rewrite (replace_from_absent _ _ _ H), str_eqb_refl. reflexivity.
Qed.

Lemma output_name_without_txt_witness :
  output_name (lit "quiz.text") = lit "quiz.text.pptx".
Proof. exact (output_name_without_txt (lit "quiz.text") eq_refl). Defined.

Lemma starts_with_txt_app (x : str) :
  x <> [] ->
  starts_with (lit ".txt") (x ++ lit ".txt") = starts_with (lit ".txt") x.
Proof.
  intros H.
  destruct x as [|a [|b [|c [|d x]]]]; [congruence| | | |reflexivity];
    change (lit ".txt") with [46; 116; 120; 116];
    cbn [app starts_with];
    repeat match goal with
           | |- context [(?m =? ?n)%N] =>
               is_var n; destruct (m =? n)%N; cbn [andb]
           end;
    reflexivity.
Qed.

Lemma replace_txt_extension (base : str) :
  has_sub (lit ".txt") base = false ->
  replace (lit ".txt") (lit ".pptx") (base ++ lit ".txt")
  = base ++ lit ".pptx".
Proof.
  unfold replace. induction base as [|c r IH]; intros H; [reflexivity|].
  cbn [has_sub] in H. apply orb_false_iff in H. destruct H as [H1 H2].
  change ((c :: r) ++ lit ".txt") with (c :: r ++ lit ".txt").
  cbn [replace_from].
  change (c :: r ++ lit ".txt") with ((c :: r) ++ lit ".txt").
  rewrite starts_with_txt_app by discriminate. rewrite H1, (IH H2).
  reflexivity.
Qed.

(** X14.  A name that ends with ".txt", with no other ".txt" before it, gets
    this ending replaced by ".pptx". *)
Theorem output_name_txt_extension :
  forall base : str,
    has_sub (lit ".txt") base = false ->
    output_name (base ++ lit ".txt") = base ++ lit ".pptx".
Proof.
  intros base H. unfold output_name.
  rewrite (replace_txt_extension _ H).
  destruct (str_eqb (base ++ lit ".pptx") (base ++ lit ".txt")) eqn:E;
    [|reflexivity].
  apply str_eqb_eq, app_inv_head in E. discriminate.
Qed.

Lemma output_name_txt_extension_witness :
  output_name (lit "week 3/quiz.final.txt") = lit "week 3/quiz.final.pptx".
Proof.
  exact (output_name_txt_extension (lit "week 3/quiz.final") eq_refl).
Defined.

End OutputName.

(** ** Beyond the claims: the deck *)

Section DeckMore.

Local Open Scope list_scope.

Lemma firstn_exact {A} (l1 l2 : list A) (n : nat) :
  length l1 = n -> firstn n (l1 ++ l2) = l1.
Proof.
  intros <-. rewrite firstn_app, firstn_all, Nat.sub_diag.
  simpl. apply app_nil_r.
Qed.

Lemma skipn_exact {A} (l1 l2 : list A) (n : nat) :
  length l1 = n -> skipn n (l1 ++ l2) = l2.
Proof.
  intros <-. rewrite skipn_app, skipn_all, Nat.sub_diag. reflexivity.
Qed.

Lemma digits_injective (u v : Decimal.uint) : digits u = digits v -> u = v.
Proof.
  revert v. induction u; destruct v; simpl; intros H;
    try discriminate; try reflexivity;
    injection H as H; f_equal; apply IHu; exact H.
Qed.

Lemma str_of_nat_injective (i j : nat) : str_of_nat i = str_of_nat j -> i = j.
Proof.
  unfold str_of_nat. intros H. apply digits_injective in H.
  rewrite <- (DecimalNat.Unsigned.of_to i), <- (DecimalNat.Unsigned.of_to j).
  congruence.
Qed.

(** X17.  Slide numbers are unambiguous: two different numbers never give the
    same title, so the titles of the N question slides are pairwise
    different (and so are those of the N answer slides). *)
Theorem slide_titles_distinct :
  (forall i j : nat, slide_title i = slide_title j -> i = j)
  /\ (forall qa_pairs : list (str * str),
         let N := length qa_pairs in
         let titles :=
           map (fun s => hd [] (slide_texts s)) (slides (build_deck qa_pairs)) in
         NoDup (firstn N titles) /\ NoDup (skipn N titles)).
Proof.
  assert (forall i j : nat, slide_title i = slide_title j -> i = j) as Hinj.
  { intros i j H. unfold slide_title in H.
    apply app_inv_tail in H. apply str_of_nat_injective, H. }
  split; [exact Hinj|].
  intros qa N titles. subst N titles.
  rewrite build_deck_slides. unfold deck_slides. rewrite map_app.
  assert (forall f : nat * (str * str) -> Slide,
             (forall x, hd [] (slide_texts (f x)) = slide_title (fst x)) ->
             map (fun s => hd [] (slide_texts s)) (map f (enumerate 1 qa))
             = map slide_title (seq 1 (length qa))) as Ht.
  { intros f Hf. rewrite map_map. unfold enumerate.
    generalize 1%nat. induction qa as [|p rest IH]; intros n; [reflexivity|].
    simpl. rewrite Hf. simpl. f_equal. apply IH. }
  rewrite !Ht
    by (intros [k [q a]]; unfold slide_texts;
        cbn [question_slide answer_slide shapes map hd fst];
        apply tb_text_text_box).
  assert (NoDup (map slide_title (seq 1 (length qa)))) as Hnd.
  { apply NoDup_map_NoDup_ForallPairs; [|apply seq_NoDup].
    intros i j _ _. apply Hinj. }
  assert (length (map slide_title (seq 1 (length qa))) = length qa) as Hlen
    by (rewrite length_map; apply length_seq).
  split.
  - rewrite (firstn_exact _ _ _ Hlen). exact Hnd.
  - rewrite (skipn_exact _ _ _ Hlen). exact Hnd.
Qed.

Lemma slide_titles_distinct_witness :
  12%nat = 12%nat
  /\ NoDup [lit "1."; lit "2."; lit "3."].
Proof.
  split.
  - exact (proj1 slide_titles_distinct 12%nat 12%nat eq_refl).
  - exact (proj1 (proj2 slide_titles_distinct
                    [(lit "a", lit "b"); (lit "c", []); (lit "d", lit "e")])).
Defined.

End DeckMore.

(** ** Beyond the claims: the texts of the deck *)

Section DeckText.

Local Open Scope list_scope.

Lemma parse_content_no_NL (content q a : str) :
  In (q, a) (parse_content content) -> ~ In NL q /\ ~ In NL a.
Proof.
  intros H. rewrite parse_content_flat_map in H. apply in_flat_map in H.
  destruct H as [b [_ H]]. rewrite parse_block_one in H.
  remember (2 <=? length (lines_of b))%nat as two eqn:Etwo. clear Etwo.
  destruct H as [H|H]; [|destruct H]. injection H as <- <-.
  pose proof (split_NL_no_NL (strip b)) as Hl. fold (lines_of b) in Hl.
  assert (forall k, ~ In NL (strip (nth k (lines_of b) []))) as Hk.
  { intros k. apply not_In_strip.
    destruct (nth_in_or_default k (lines_of b) []) as [Hin | ->].
    - rewrite Forall_forall in Hl. apply Hl, Hin.
    - intros Hin. exact Hin. }
  split; [apply Hk|]. destruct two; [apply Hk|intros Hin; exact Hin].
Qed.

(** The boxes of a deck built from parsed content are boxes of texts
    without line break. *)
Lemma parsed_deck_boxes (content : str) (s : Slide) (tb : TextBox) :
  In s (slides (build_deck (parse_content content))) ->
  In tb (shapes s) ->
  exists left top width height wrap text size bold,
    tb = text_box left top width height wrap text size bold
    /\ ~ In NL text.
Proof.
  intros Hs Htb. rewrite build_deck_slides in Hs. unfold deck_slides in Hs.
  assert (forall k q a, In (k, (q, a)) (enumerate 1 (parse_content content)) ->
                        ~ In NL q /\ ~ In NL a) as Hqa.
  { intros k q a H. unfold enumerate in H. apply in_combine_r in H.
    exact (parse_content_no_NL _ _ _ H). }
  apply in_app_or in Hs. destruct Hs as [Hs|Hs];
    apply in_map_iff in Hs; destruct Hs as [[k [q a]] [<- Hin]];
    destruct (Hqa _ _ _ Hin) as [Hq Ha];
    pose proof (slide_title_no_NL k) as Ht;
    cbn [question_slide answer_slide shapes In] in Htb;
    repeat (destruct Htb as [<-|Htb]; [eauto 12|]);
    contradiction.
Qed.

(** X18.  In a deck built from a parsed file no text box holds a line break,
    title or body: every box is one paragraph, the one the script
    formats. *)
Theorem parsed_deck_single_paragraphs :
  forall (content : str) (s : Slide) (tb : TextBox),
    In s (slides (build_deck (parse_content content))) ->
    In tb (shapes s) ->
    ~ In NL (tb_text tb).
Proof.
  intros content s tb Hs Htb.
  destruct (parsed_deck_boxes _ _ _ Hs Htb)
    as [l [t [wd [h [wrap [text [size [bold [-> Hnl]]]]]]]]].
  rewrite tb_text_text_box. exact Hnl.
Qed.

Lemma parsed_deck_single_paragraphs_witness :
  ~ In NL (lit "A1").
Proof.
  refine (parsed_deck_single_paragraphs
            (lit "Q1?" ++ [NL] ++ lit "A1")
            (answer_slide (lit "1.") (lit "Q1?") (lit "A1"))
            (text_box 10 45 80 20 (Some true) (lit "A1") 28 true)
            _ _).
  - vm_compute. right. left. reflexivity.
  - vm_compute. right. right. left. reflexivity.
Defined.

(** X15.  In a deck built from a parsed file every text box has exactly
    one paragraph and the script has formatted it (justified, white, a
    font size and a bold flag set): no text of such a deck is left as the
    library sets it.  The script formats the first paragraph of a box
    only; a text with a line break would leave its other paragraphs
    unformatted, and parsed texts have none. *)
Theorem parsed_deck_fully_formatted :
  forall (content : str) (s : Slide) (tb : TextBox),
    In s (slides (build_deck (parse_content content))) ->
    In tb (shapes s) ->
    exists p : Paragraph,
      tb_paragraphs tb = [p] /\ formatted p = true /\ p_text p = tb_text tb.
Proof.
  intros content s tb Hs Htb.
  destruct (parsed_deck_boxes _ _ _ Hs Htb)
    as [l [t [wd [h [wrap [text [size [bold [-> Hnl]]]]]]]]].
  rewrite tb_text_text_box, (text_box_one_paragraph _ _ _ _ _ _ _ _ Hnl).
  eexists. split; [reflexivity|]. split; reflexivity.
Qed.

Lemma parsed_deck_fully_formatted_witness :
  exists p : Paragraph,
    tb_paragraphs (text_box 10 45 80 20 (Some true) (lit "A1") 28 true) = [p]
    /\ formatted p = true
    /\ p_text p = tb_text (text_box 10 45 80 20 (Some true) (lit "A1") 28 true).
Proof.
  refine (parsed_deck_fully_formatted
            (lit "Q1?" ++ [NL] ++ lit "A1")
            (answer_slide (lit "1.") (lit "Q1?") (lit "A1"))
            (text_box 10 45 80 20 (Some true) (lit "A1") 28 true)
            _ _).
  - vm_compute. right. left. reflexivity.
  - vm_compute. right. right. left. reflexivity.
Defined.

End DeckText.
